(** * Wine origin predictor: feature assembly and ensemble inference

    A shallow embedding of [api/main.py] (the FastAPI service of the
    wine-quality-review repository) and the properties its specification
    states about it.

    Modelling conventions.
    - A Python [float] (and a numpy [float64] cell) is an exact rational
      [Qc]; rounding, infinities and NaN are outside the model.
    - A one-row numpy array of shape [(1, n)] and a vector of shape [(n,)]
      are both a [list float].
    - A Python exception is a value of [exn]; code that may raise returns
      [result].
    - The fitted artifacts are unpickled objects whose classes live in
      scikit-learn and XGBoost, so they are records of the methods the
      service calls on them.
    - A [dict] with string keys is a [gmap string _]. *)

From Stdlib Require Import QArith Qcanon.
From Stdlib Require Floats.PrimFloat.
From stdpp Require Import base option list strings gmap fin_maps numbers.

Open Scope Qc_scope.

Abbreviation float := Qc (only parsing).

(** ** Exceptions and fallible computations *)

Inductive exn :=
  | ValueError (msg : string)
  | IndexError (msg : string)
  | NameError (msg : string)
  | OtherError (cls msg : string).

(** [str(e)] *)
Definition str (e : exn) : string :=
  match e with
  | ValueError msg | IndexError msg | NameError msg | OtherError _ msg => msg
  end.

Inductive result (A : Type) :=
  | Ok (a : A)
  | Raise (e : exn).
Arguments Ok {A} a.
Arguments Raise {A} e.

#[global] Instance result_ret : MRet result := λ A a, Ok a.
#[global] Instance result_bind : MBind result := λ A B f m,
  match m with
  | Ok a => f a
  | Raise e => Raise e
  end.

Definition is_Ok {A} (r : result A) : Prop := ∃ a, r = Ok a.

(** ** The numpy operations the handler uses *)

Module np.

(** [np.zeros((1, n))] *)
Definition zeros (n : nat) : list float := replicate n 0.

(** [np.hstack] of one-row arrays. *)
Definition hstack (rows : list (list float)) : list float := concat rows.

(** [a + b] on one-dimensional arrays: elementwise on equal shapes, a
    one-element operand is broadcast, any other pair of shapes raises. *)
Definition add (a b : list float) : result (list float) :=
  if decide (length a = length b) then Ok (zip_with Qcplus a b)
  else match a, b with
       | [x], _ => Ok ((λ y, x + y) <$> b)
       | _, [y] => Ok ((λ x, x + y) <$> a)
       | _, _ => Raise (ValueError "operands could not be broadcast together")
       end.

(** [a / c] for a scalar [c]. *)
Definition div_scalar (a : list float) (c : float) : list float :=
  (λ x, x / c) <$> a.

(** The scan of [np.argmax]: [mp] is the largest value met so far, [idx]
    its position, [i] the position of the head of [l]; only a value
    strictly above [mp] replaces it. *)
Fixpoint argmax_from (mp : float) (idx i : nat) (l : list float) : nat :=
  match l with
  | [] => idx
  | x :: l' =>
      if decide (x ≤ mp) then argmax_from mp idx (S i) l'
      else argmax_from x i (S i) l'
  end.

Definition argmax (a : list float) : result nat :=
  match a with
  | [] => Raise (ValueError "attempt to get argmax of an empty sequence")
  | x :: l => Ok (argmax_from x 0 1 l)
  end.

(** [a[i]] on a one-dimensional array. *)
Definition getitem {A} (a : list A) (i : nat) : result A :=
  match a !! i with
  | Some x => Ok x
  | None => Raise (IndexError "index out of bounds")
  end.

(** [sum(xs)] *)
Definition sum (xs : list float) : float := foldr Qcplus 0 xs.

End np.

(** ** Python dictionaries *)

(** [{k: v for k, v in pairs}]: pairs are stored from left to right, a later
    pair replaces an earlier one with the same key. *)
Definition dict_of_pairs {V} (pairs : list (string * V)) : gmap string V :=
  foldl (λ d kv, <[kv.1 := kv.2]> d) ∅ pairs.

(** [d.values()] *)
Definition dict_values {V} (d : gmap string V) : list V := (map_to_list d).*2.

(** ** Request and response models *)

Record WineInput := {
  description : string;
  points : float;
  price : float;
  variety : string
}.

(** The numeric constraint of [Field(..., ge=lo, le=hi)]. *)
Definition Field_ge_le (lo hi v : float) : bool :=
  bool_decide (lo ≤ v) && bool_decide (v ≤ hi).

Definition points_Field : float → bool := Field_ge_le 0 (Q2Qc 100).
Definition price_Field : float → bool := Field_ge_le 0 (Q2Qc 10000).

Record PredictionResponse := {
  predicted_country : string;
  confidence_scores : gmap string float;
  prediction_time : float;
  model_version : string;
  timestamp : string
}.

(** What [predict_wine_origin] hands back to FastAPI: the response model, or
    a raised [HTTPException(status_code, detail)]. *)
Inductive http_result :=
  | Response (r : PredictionResponse)
  | HTTPException (status_code : nat) (detail : string).

(** The readings of the wall clock during one call: the two [time.time()]
    and [datetime.now().isoformat()]. *)
Record Clock := {
  time_start : float;
  time_end : float;
  now_isoformat : string
}.

(** ** Fitted artifacts *)

Record TfidfVectorizer := {
  (** [transform([text]).toarray()] *)
  tfidf_transform : string → result (list float)
}.

Record OneHotEncoder := {
  (** [transform([[category]])] *)
  encoder_transform : string → result (list float);
  (** [get_feature_names_out(['variety'])] *)
  get_feature_names_out : result (list string)
}.

Record Scaler := {
  (** [transform([row])] *)
  scaler_transform : list float → result (list float)
}.

Record Classifier := {
  (** [predict_proba(X)[0]] *)
  predict_proba : list float → result (list float);
  classes_ : list string
}.

Record Artifacts := {
  art_rf : Classifier;
  art_xgb : Classifier;
  art_tfidf : TfidfVectorizer;
  art_encoder : OneHotEncoder;
  art_scaler : Scaler
}.

(** Modelled from the spec: the fitted scaler's [transform], absent from the
    repository (the object is unpickled from [scaler.pkl]); section 4.3 gives
    it as [(x - mean) / std] per feature with the stored statistics. A row
    of another width is refused. *)
Definition StandardScaler (mean_ scale_ : list float) : Scaler :=
  {| scaler_transform row :=
       if decide (length row = length mean_)
       then Ok (zip_with (λ x ms, (x - ms.1) / ms.2) row (zip mean_ scale_))
       else Raise (ValueError "X has a different number of features than the scaler") |}.

(** The indicator vector of [category] over [categories]. *)
Definition one_hot (categories : list string) (category : string) : list float :=
  (λ c, if decide (c = category) then 1 else 0) <$> categories.

(** Modelled from the spec: the fitted category encoder, absent from the
    repository (unpickled from [onehot_encoder.pkl]); section 4.2 gives it as
    one-hot over the categories seen at training time, failing structurally
    on any other category. *)
Definition FittedEncoder (categories : list string) : OneHotEncoder :=
  {| encoder_transform category :=
       if decide (category ∈ categories) then Ok (one_hot categories category)
       else Raise (ValueError "Found unknown categories");
     get_feature_names_out := Ok ((λ c, "variety_" +:+ c) <$> categories) |}.

(** Modelled from the spec: a fitted classifier, absent from the repository
    (unpickled from [random_forest_tfidf.pkl] and [xgboost_tfidf.pkl]);
    sections 4.4 and 4.5 say it surfaces a structural error when the row's
    width is not the one it was fitted on, and otherwise returns a vector of
    per-class probabilities. *)
Definition FittedClassifier (n_features_in_ : nat) (classes : list string)
    (proba : list float → list float) : Classifier :=
  {| predict_proba X :=
       if decide (length X = n_features_in_) then Ok (proba X)
       else Raise (ValueError "Feature shape mismatch");
     classes_ := classes |}.

(** ** Module state and startup *)

(** The module-level names bound by the loading block; a name the block did
    not reach stays unbound. *)
Record Server := {
  MODELS_LOADED : bool;
  rf_model : option Classifier;
  xgb_model : option Classifier;
  tfidf_vectorizer : option TfidfVectorizer;
  variety_encoder : option OneHotEncoder;
  scaler : option Scaler
}.

(** What the model directory answers at startup: the outcome of
    [os.makedirs] and of each [joblib.load]. *)
Record ModelDir := {
  makedirs : result ();
  random_forest_tfidf_pkl : result Classifier;
  xgboost_tfidf_pkl : result Classifier;
  tfidf_vectorizer_pkl : result TfidfVectorizer;
  onehot_encoder_pkl : result OneHotEncoder;
  scaler_pkl : result Scaler
}.

Definition unready (rf xgb : option Classifier) (tf : option TfidfVectorizer)
    (enc : option OneHotEncoder) : Server :=
  {| MODELS_LOADED := false; rf_model := rf; xgb_model := xgb;
     tfidf_vectorizer := tf; variety_encoder := enc; scaler := None |}.

(** The [try ... except Exception] block that loads the models. *)
Definition startup (d : ModelDir) : Server :=
  match makedirs d with
  | Raise _ => unready None None None None
  | Ok _ =>
  match random_forest_tfidf_pkl d with
  | Raise _ => unready None None None None
  | Ok rf =>
  match xgboost_tfidf_pkl d with
  | Raise _ => unready (Some rf) None None None
  | Ok xgb =>
  match tfidf_vectorizer_pkl d with
  | Raise _ => unready (Some rf) (Some xgb) None None
  | Ok tf =>
  match onehot_encoder_pkl d with
  | Raise _ => unready (Some rf) (Some xgb) (Some tf) None
  | Ok enc =>
  match scaler_pkl d with
  | Raise _ => unready (Some rf) (Some xgb) (Some tf) (Some enc)
  | Ok sc =>
      {| MODELS_LOADED := true; rf_model := Some rf; xgb_model := Some xgb;
         tfidf_vectorizer := Some tf; variety_encoder := Some enc;
         scaler := Some sc |}
  end end end end end end.

(** The state after a startup in which every load succeeded. *)
Definition loaded (a : Artifacts) : Server :=
  {| MODELS_LOADED := true; rf_model := Some (art_rf a);
     xgb_model := Some (art_xgb a); tfidf_vectorizer := Some (art_tfidf a);
     variety_encoder := Some (art_encoder a); scaler := Some (art_scaler a) |}.

(** Reading a module-level name. *)
Definition global {A} (name : string) (binding : option A) : result A :=
  match binding with
  | Some a => Ok a
  | None => Raise (NameError ("name '" +:+ name +:+ "' is not defined"))
  end.

(** ** The prediction handler *)

(** Lines 128-132: the encoder's output, or the zero row of the encoder's
    output width when [transform] raises [ValueError]. *)
Definition encode_variety (enc : OneHotEncoder) (category : string)
    : result (list float) :=
  match encoder_transform enc category with
  | Ok X_variety => Ok X_variety
  | Raise (ValueError _) =>
      names ← get_feature_names_out enc;
      Ok (np.zeros (length names))
  | Raise e => Raise e
  end.

(** Lines 125-138: the feature row [X]. *)
Definition features (st : Server) (wine : WineInput) : result (list float) :=
  tfidf ← global "tfidf_vectorizer" (tfidf_vectorizer st);
  X_text ← tfidf_transform tfidf (description wine);
  enc ← global "variety_encoder" (variety_encoder st);
  X_variety ← encode_variety enc (variety wine);
  sc ← global "scaler" (scaler st);
  X_numerical ← scaler_transform sc [price wine; points wine];
  Ok (np.hstack [X_text; X_variety; X_numerical]).

(** Line 145: the averaged probabilities. *)
Definition average (rf_pred_proba xgb_pred_proba : list float)
    : result (list float) :=
  total ← np.add rf_pred_proba xgb_pred_proba;
  Ok (np.div_scalar total (Q2Qc 2)).

(** Lines 141-153 and 158: the predicted country and the confidence scores
    for the feature row [X]. *)
Definition ensemble (st : Server) (X : list float)
    : result (string * gmap string float) :=
  rf ← global "rf_model" (rf_model st);
  rf_pred_proba ← predict_proba rf X;
  xgb ← global "xgb_model" (xgb_model st);
  xgb_pred_proba ← predict_proba xgb X;
  avg_proba ← average rf_pred_proba xgb_pred_proba;
  predicted_idx ← np.argmax avg_proba;
  rf' ← global "rf_model" (rf_model st);
  let countries := classes_ rf' in
  let confidence_scores := dict_of_pairs (zip countries avg_proba) in
  country ← np.getitem countries predicted_idx;
  Ok (country, confidence_scores).

(** The body of the outer [try] (lines 122-162). *)
Definition predict_body (st : Server) (clock : Clock) (wine : WineInput)
    : result PredictionResponse :=
  let start_time := time_start clock in
  X ← features st wine;
  '(country, confidence_scores) ← ensemble st X;
  let prediction_time := time_end clock - start_time in
  Ok {| predicted_country := country;
        confidence_scores := confidence_scores;
        prediction_time := prediction_time;
        model_version := "1.0.0";
        timestamp := now_isoformat clock |}.

(** [POST /predict] *)
Definition predict_wine_origin (st : Server) (clock : Clock) (wine : WineInput)
    : http_result :=
  if negb (MODELS_LOADED st) then
    HTTPException 503 "Models not loaded. Please check server logs."
  else
    match predict_body st clock wine with
    | Ok r => Response r
    | Raise e => HTTPException 500 ("Prediction error: " +:+ str e)
    end.

(** ** The other endpoints and the request loop *)

Inductive request :=
  | GET_root
  | GET_health
  | POST_predict (wine : WineInput)
  | GET_example.

Inductive reply :=
  | RootInfo (status : string)
  | Health (status : string) (models_loaded : bool)
  | Predict (r : http_result)
  | Example (w : WineInput).

(** [GET /]: the "status" entry of the returned dict, the other entries
    being constants. *)
Definition root (st : Server) : string :=
  if MODELS_LOADED st then "Models loaded" else "Models not loaded".

(** [GET /health]: the "status" and "models_loaded" entries. *)
Definition health_check (st : Server) : string * bool :=
  (if MODELS_LOADED st then "healthy" else "unhealthy", MODELS_LOADED st).

(** [GET /example] *)
Definition get_example : WineInput :=
  {| description := "A rich and full-bodied wine with notes of black cherry and vanilla";
     points := Q2Qc 92;
     price := Q2Qc 45;
     variety := "Cabernet Sauvignon" |}.

(** One request against the module state: no handler assigns a module-level
    name, so the state comes back as it went in. *)
Definition handle (st : Server) (clock : Clock) (req : request)
    : Server * reply :=
  match req with
  | GET_root => (st, RootInfo (root st))
  | GET_health => (st, uncurry Health (health_check st))
  | POST_predict wine => (st, Predict (predict_wine_origin st clock wine))
  | GET_example => (st, Example get_example)
  end.

(** The process serving a sequence of requests, each with its own clock
    readings. *)
Fixpoint serve (st : Server) (reqs : list (Clock * request))
    : Server * list reply :=
  match reqs with
  | [] => (st, [])
  | (clock, req) :: reqs' =>
      let '(st', rep) := handle st clock req in
      let '(st'', reps) := serve st' reqs' in
      (st'', rep :: reps)
  end.

(** ** Notions used in the statements *)

(** [i] is the first position of [a] that holds the largest value of [a]. *)
Definition first_max (a : list float) (i : nat) : Prop :=
  ∃ m, a !! i = Some m
       ∧ (∀ j x, a !! j = Some x → x ≤ m)
       ∧ (∀ j x, a !! j = Some x → (j < i)%nat → x < m).

(** Closes an equation between evaluated rows of rationals, entry by entry. *)
Ltac Qc_rows :=
  try apply (f_equal Ok);
  repeat (apply (f_equal2 cons); [apply Qc_is_canon; reflexivity |]);
  reflexivity.

(** Artifacts used to exercise the statements below on concrete inputs. *)
Definition example_artifacts : Artifacts :=
  {| art_rf := FittedClassifier 6 ["France"; "Italy"; "US"]
                 (λ _, [Q2Qc (1 # 2); Q2Qc (1 # 4); Q2Qc (1 # 4)]);
     art_xgb := FittedClassifier 6 ["France"; "Italy"; "US"]
                  (λ _, [Q2Qc (1 # 4); Q2Qc (1 # 2); Q2Qc (1 # 4)]);
     art_tfidf := {| tfidf_transform _ := Ok [Q2Qc (1 # 3); 0] |};
     art_encoder := FittedEncoder ["Merlot"; "Cabernet Sauvignon"];
     art_scaler := StandardScaler [Q2Qc 35; Q2Qc 88] [Q2Qc 40; Q2Qc 3] |}.

Definition example_clock : Clock :=
  {| time_start := 1; time_end := Q2Qc (3 # 2);
     now_isoformat := "2024-01-01T00:00:00" |}.

Definition example_unknown_wine : WineInput :=
  {| description := "A crisp white wine with citrus notes";
     points := Q2Qc 100;
     price := 0;
     variety := "Zzz-Unknown-Grape-000" |}.

(** The tolerance [1e-6]. *)
Definition tolerance : float := Q2Qc (1 # 1000000).

(** The artifacts [a] with classifier B's class list replaced. *)
Definition relabel_xgb (a : Artifacts) (classes : list string) : Artifacts :=
  {| art_rf := art_rf a;
     art_xgb := {| predict_proba := predict_proba (art_xgb a);
                   classes_ := classes |};
     art_tfidf := art_tfidf a;
     art_encoder := art_encoder a;
     art_scaler := art_scaler a |}.

(** Two outcomes of the handler that agree on everything but the timing
    fields of a response. *)
Definition same_prediction (o1 o2 : http_result) : Prop :=
  match o1, o2 with
  | Response r1, Response r2 =>
      predicted_country r1 = predicted_country r2
      ∧ confidence_scores r1 = confidence_scores r2
  | HTTPException status1 detail1, HTTPException status2 detail2 =>
      status1 = status2 ∧ detail1 = detail2
  | _, _ => False
  end.

(** [wine] with its price and points exchanged. *)
Definition swap_price_points (wine : WineInput) : WineInput :=
  {| description := description wine;
     points := price wine;
     price := points wine;
     variety := variety wine |}.

(** One of the five [joblib.load] calls raises. *)
Definition load_failed (d : ModelDir) : Prop :=
  (∃ e, random_forest_tfidf_pkl d = Raise e)
  ∨ (∃ e, xgboost_tfidf_pkl d = Raise e)
  ∨ (∃ e, tfidf_vectorizer_pkl d = Raise e)
  ∨ (∃ e, onehot_encoder_pkl d = Raise e)
  ∨ (∃ e, scaler_pkl d = Raise e).

Definition service_unavailable : http_result :=
  HTTPException 503 "Models not loaded. Please check server logs.".

(** Every prediction request in [reqs] got the 503 reply in [reps]. *)
Definition all_predictions_refused (reqs : list (Clock * request))
    (reps : list reply) : Prop :=
  Forall2 (λ req rep, ∀ wine, req.2 = POST_predict wine →
                              rep = Predict service_unavailable) reqs reps.

(** A model directory in which the encoder's pickle is missing. *)
Definition example_broken_dir : ModelDir :=
  {| makedirs := Ok ();
     random_forest_tfidf_pkl := Ok (art_rf example_artifacts);
     xgboost_tfidf_pkl := Ok (art_xgb example_artifacts);
     tfidf_vectorizer_pkl := Ok (art_tfidf example_artifacts);
     onehot_encoder_pkl :=
       Raise (OtherError "FileNotFoundError" "No such file or directory");
     scaler_pkl := Ok (art_scaler example_artifacts) |}.

(** A call made by the body of the [try] raises [e]; a [ValueError] of the
    encoder's [transform] is not among them, the inner [except] takes it. *)
Inductive step_failure (a : Artifacts) (wine : WineInput) : exn → Prop :=
  | vectorizer_raises e :
      tfidf_transform (art_tfidf a) (description wine) = Raise e →
      step_failure a wine e
  | encoder_raises e X_text :
      tfidf_transform (art_tfidf a) (description wine) = Ok X_text →
      encoder_transform (art_encoder a) (variety wine) = Raise e →
      (∀ msg, e ≠ ValueError msg) →
      step_failure a wine e
  | feature_names_raise e X_text msg :
      tfidf_transform (art_tfidf a) (description wine) = Ok X_text →
      encoder_transform (art_encoder a) (variety wine)
      = Raise (ValueError msg) →
      get_feature_names_out (art_encoder a) = Raise e →
      step_failure a wine e
  | scaler_raises e X_text X_variety :
      tfidf_transform (art_tfidf a) (description wine) = Ok X_text →
      encode_variety (art_encoder a) (variety wine) = Ok X_variety →
      scaler_transform (art_scaler a) [price wine; points wine] = Raise e →
      step_failure a wine e
  | classifier_a_raises e X :
      features (loaded a) wine = Ok X →
      predict_proba (art_rf a) X = Raise e →
      step_failure a wine e
  | classifier_b_raises e X Pa :
      features (loaded a) wine = Ok X →
      predict_proba (art_rf a) X = Ok Pa →
      predict_proba (art_xgb a) X = Raise e →
      step_failure a wine e
  | average_raises e X Pa Pb :
      features (loaded a) wine = Ok X →
      predict_proba (art_rf a) X = Ok Pa →
      predict_proba (art_xgb a) X = Ok Pb →
      average Pa Pb = Raise e →
      step_failure a wine e
  | argmax_raises e X Pa Pb avg :
      features (loaded a) wine = Ok X →
      predict_proba (art_rf a) X = Ok Pa →
      predict_proba (art_xgb a) X = Ok Pb →
      average Pa Pb = Ok avg →
      np.argmax avg = Raise e →
      step_failure a wine e
  | label_lookup_raises e X Pa Pb avg i :
      features (loaded a) wine = Ok X →
      predict_proba (art_rf a) X = Ok Pa →
      predict_proba (art_xgb a) X = Ok Pb →
      average Pa Pb = Ok avg →
      np.argmax avg = Ok i →
      np.getitem (classes_ (art_rf a)) i = Raise e →
      step_failure a wine e.

Definition prediction_error (e : exn) : http_result :=
  HTTPException 500 ("Prediction error: " +:+ str e).

(** Artifacts whose classifier A was fitted on rows of seven features,
    while the transformers produce six. *)
Definition example_mismatched_artifacts : Artifacts :=
  {| art_rf := FittedClassifier 7 ["France"; "Italy"; "US"]
                 (λ _, [Q2Qc (1 # 2); Q2Qc (1 # 4); Q2Qc (1 # 4)]);
     art_xgb := art_xgb example_artifacts;
     art_tfidf := art_tfidf example_artifacts;
     art_encoder := art_encoder example_artifacts;
     art_scaler := art_scaler example_artifacts |}.

(** ** Request validation *)

(** [c.isspace()] for a character below U+0100, a character of a [string]
    standing for the code point of its byte. *)
Definition isspace (c : Ascii.ascii) : bool :=
  let n := Ascii.nat_of_ascii c in
  (((9 <=? n) && (n <=? 13)) || ((28 <=? n) && (n <=? 32))
   || (n =? 133) || (n =? 160))%nat.

(** [s.lstrip()] *)
Fixpoint lstrip (s : string) : string :=
  match s with
  | EmptyString => EmptyString
  | String c s' => if isspace c then lstrip s' else s
  end.

(** [s.rstrip()] *)
Fixpoint rstrip (s : string) : string :=
  match s with
  | EmptyString => EmptyString
  | String c s' =>
      match rstrip s' with
      | EmptyString => if isspace c then EmptyString else String c EmptyString
      | r => String c r
      end
  end.

(** [s.strip()] *)
Definition strip (s : string) : string := rstrip (lstrip s).

(** Why pydantic refuses a field. *)
Inductive error_type :=
  | min_length_error
  | max_length_error
  | not_ge_error
  | not_le_error
  | value_error (msg : string).

(** The [validator('description')] of [WineInput]. *)
Definition validate_description (v : string) : error_type + string :=
  if decide (strip v = "")
  then inl (value_error "Description cannot be empty or just whitespace")
  else inr (strip v).

(** The length constraint of a [str] field: [min_length], then
    [max_length]. *)
Definition constr_length (min_length : nat) (max_length : option nat)
    (v : string) : error_type + string :=
  if decide (String.length v < min_length)%nat then inl min_length_error
  else match max_length with
       | Some hi =>
           if decide (hi < String.length v)%nat then inl max_length_error
           else inr v
       | None => inr v
       end.

(** The bounds of a [float] field: [ge], then [le]. *)
Definition number_size (ge le v : float) : error_type + float :=
  if decide (ge ≤ v) then
    if decide (v ≤ le) then inr v else inl not_le_error
  else inl not_ge_error.

(** [description]: the constraints of [Field(..., min_length=10,
    max_length=1000)], then the class validator on the accepted value. *)
Definition description_field (v : string) : error_type + string :=
  match constr_length 10 (Some 1000%nat) v with
  | inl err => inl err
  | inr v' => validate_description v'
  end.

Definition points_field : float → error_type + float :=
  number_size 0 (Q2Qc 100).

Definition price_field : float → error_type + float :=
  number_size 0 (Q2Qc 10000).

Definition variety_field : string → error_type + string :=
  constr_length 1 None.

(** The errors of one field, under the field's name. *)
Definition field_errors {A} (name : string) (r : error_type + A)
    : list (string * error_type) :=
  match r with
  | inl err => [(name, err)]
  | inr _ => []
  end.

(** Building a [WineInput] from a request body: every field is validated, in the order of the
    class body; the model is built when no field failed, and otherwise the
    failures are reported together. *)
Definition WineInput_validate (body : WineInput)
    : list (string * error_type) + WineInput :=
  match description_field (description body), points_field (points body),
        price_field (price body), variety_field (variety body) with
  | inr d, inr pts, inr pr, inr v =>
      inr {| description := d; points := pts; price := pr; variety := v |}
  | rd, rpts, rpr, rv =>
      inl (field_errors "description" rd ++ field_errors "points" rpts
           ++ field_errors "price" rpr ++ field_errors "variety" rv)
  end.

(** The artifacts [a] with the two classifiers' [predict_proba] exchanged,
    the class lists staying where they are. *)
Definition swap_predict_proba (a : Artifacts) : Artifacts :=
  {| art_rf := {| predict_proba := predict_proba (art_xgb a);
                  classes_ := classes_ (art_rf a) |};
     art_xgb := {| predict_proba := predict_proba (art_rf a);
                   classes_ := classes_ (art_xgb a) |};
     art_tfidf := art_tfidf a;
     art_encoder := art_encoder a;
     art_scaler := art_scaler a |}.

(** ** Further inputs used to exercise the statements *)

(** Artifacts whose classifier B answers with two probabilities while
    classifier A answers with three. *)
Definition example_two_class_xgb : Artifacts :=
  {| art_rf := art_rf example_artifacts;
     art_xgb := FittedClassifier 6 ["France"; "Italy"]
                  (λ _, [Q2Qc (1 # 2); Q2Qc (1 # 2)]);
     art_tfidf := art_tfidf example_artifacts;
     art_encoder := art_encoder example_artifacts;
     art_scaler := art_scaler example_artifacts |}.

(** Artifacts whose classifiers were fitted on no class at all. *)
Definition example_no_class : Artifacts :=
  {| art_rf := FittedClassifier 6 [] (λ _, []);
     art_xgb := FittedClassifier 6 [] (λ _, []);
     art_tfidf := art_tfidf example_artifacts;
     art_encoder := art_encoder example_artifacts;
     art_scaler := art_scaler example_artifacts |}.

(** Artifacts whose classifier A names two classes but answers with three
    probabilities, the last one the largest. *)
Definition example_short_classes : Artifacts :=
  {| art_rf := FittedClassifier 6 ["France"; "Italy"]
                 (λ _, [Q2Qc (1 # 4); Q2Qc (1 # 4); Q2Qc (1 # 2)]);
     art_xgb := FittedClassifier 6 ["France"; "Italy"; "US"]
                  (λ _, [Q2Qc (1 # 4); Q2Qc (1 # 4); Q2Qc (1 # 2)]);
     art_tfidf := art_tfidf example_artifacts;
     art_encoder := art_encoder example_artifacts;
     art_scaler := art_scaler example_artifacts |}.

(** Artifacts whose two classifiers answer alike. *)
Definition example_agreeing : Artifacts :=
  {| art_rf := art_rf example_artifacts;
     art_xgb := art_rf example_artifacts;
     art_tfidf := art_tfidf example_artifacts;
     art_encoder := art_encoder example_artifacts;
     art_scaler := art_scaler example_artifacts |}.

(** Artifacts whose classifiers differ but both rank the first class
    highest. *)
Definition example_unanimous : Artifacts :=
  {| art_rf := art_rf example_artifacts;
     art_xgb := FittedClassifier 6 ["France"; "Italy"; "US"]
                  (λ _, [Q2Qc (2 # 5); Q2Qc (3 # 10); Q2Qc (3 # 10)]);
     art_tfidf := art_tfidf example_artifacts;
     art_encoder := art_encoder example_artifacts;
     art_scaler := art_scaler example_artifacts |}.

(** A request body whose description is padded with blanks. *)
Definition example_padded_body : WineInput :=
  {| description := "   Bright cherry and spice  ";
     points := Q2Qc 88;
     price := Q2Qc 20;
     variety := "Pinot Noir" |}.

(** [body] with ten blanks put before its description. *)
Definition pad_description (body : WineInput) : WineInput :=
  {| description := ("          " +:+ description body)%string;
     points := points body;
     price := price body;
     variety := variety body |}.

(** A request body whose points, price and variety are all refused. *)
Definition example_bad_body : WineInput :=
  {| description := "A rich and full-bodied wine";
     points := Q2Qc 101;
     price := Q2Qc (-1);
     variety := "" |}.

(** An input with another variety the example encoder has not seen. *)
Definition example_other_unknown_wine : WineInput :=
  {| description := description example_unknown_wine;
     points := points example_unknown_wine;
     price := price example_unknown_wine;
     variety := "Another-Unknown-Grape" |}.

(** ** The scaler in binary64 *)

Module binary64.
Import PrimFloat.

(** Modelled from the spec: the transform of the fitted scaler of section
    4.3, [(x - mean) / std] per feature, in the IEEE binary64 arithmetic of
    the program's [float]. *)
Definition scale (mean_ scale_ row : list float) : list float :=
  zip_with (λ x ms, ((x - ms.1) / ms.2)%float) row (zip mean_ scale_).

(** The bounds of [Field(..., ge=lo, le=hi)] on a binary64 value. *)
Definition Field_ge_le (lo hi v : float) : bool :=
  (lo <=? v)%float && (v <=? hi)%float.

(** The nearest binary64 values to 1e-30 and 2e-30, which is how Python
    reads these two literals. *)
Definition tiny_price : float := 0x1.4484bfeebc2ap-100%float.
Definition tiny_points : float := 0x1.4484bfeebc2ap-99%float.

(** [Field(..., ge=0, le=100)] and [Field(..., ge=0, le=10000)] *)
Definition points_Field : float → bool := Field_ge_le 0 100.
Definition price_Field : float → bool := Field_ge_le 0 10000.

(** Stored statistics used to exercise [scale]: means 35 and 88, standard
    deviations 40 and 3. *)
Definition example_mean_ : list float := [35; 88]%float.
Definition example_scale_ : list float := [40; 3]%float.

End binary64.

(** ** The artifacts as objects with internal state *)

(** A call on an object: it reads the heap the objects live in, may change
    it, and returns or raises; what it changed before raising stays
    changed. *)
Definition call (Heap A : Type) : Type := Heap → result A * Heap.

#[global] Instance call_ret {Heap} : MRet (call Heap) := λ A a σ, (Ok a, σ).
#[global] Instance call_bind {Heap} : MBind (call Heap) := λ A B f m σ,
  match m σ with
  | (Ok a, σ') => f a σ'
  | (Raise e, σ') => (Raise e, σ')
  end.

(** A computation that touches no object. *)
Definition no_call {Heap A} (r : result A) : call Heap A := λ σ, (r, σ).

(** [try: body / except ValueError: handler] *)
Definition try_except_ValueError {Heap A} (body handler : call Heap A)
    : call Heap A := λ σ,
  match body σ with
  | (Raise (ValueError _), σ') => handler σ'
  | outcome => outcome
  end.

(** The five unpickled objects, by the methods and attributes the handler
    uses on them; each may read and change the heap. *)
Record ObjectArtifacts (Heap : Type) := {
  obj_rf_predict_proba : list float → call Heap (list float);
  obj_rf_classes_ : call Heap (list string);
  obj_xgb_predict_proba : list float → call Heap (list float);
  obj_tfidf_transform : string → call Heap (list float);
  obj_encoder_transform : string → call Heap (list float);
  obj_get_feature_names_out : call Heap (list string);
  obj_scaler_transform : list float → call Heap (list float)
}.
Arguments obj_rf_predict_proba {Heap} _ _ _.
Arguments obj_rf_classes_ {Heap} _ _.
Arguments obj_xgb_predict_proba {Heap} _ _ _.
Arguments obj_tfidf_transform {Heap} _ _ _.
Arguments obj_encoder_transform {Heap} _ _ _.
Arguments obj_get_feature_names_out {Heap} _ _.
Arguments obj_scaler_transform {Heap} _ _ _.

(** Lines 128-132 on stateful objects. *)
Definition encode_variety_call {Heap} (objs : ObjectArtifacts Heap)
    (category : string) : call Heap (list float) :=
  try_except_ValueError (obj_encoder_transform objs category)
    (names ← obj_get_feature_names_out objs;
     mret (np.zeros (length names))).

(** Lines 125-138 on stateful objects. *)
Definition features_call {Heap} (objs : ObjectArtifacts Heap)
    (wine : WineInput) : call Heap (list float) :=
  X_text ← obj_tfidf_transform objs (description wine);
  X_variety ← encode_variety_call objs (variety wine);
  X_numerical ← obj_scaler_transform objs [price wine; points wine];
  mret (np.hstack [X_text; X_variety; X_numerical]).

(** Lines 141-153 and 158 on stateful objects. *)
Definition ensemble_call {Heap} (objs : ObjectArtifacts Heap)
    (X : list float) : call Heap (string * gmap string float) :=
  rf_pred_proba ← obj_rf_predict_proba objs X;
  xgb_pred_proba ← obj_xgb_predict_proba objs X;
  avg_proba ← no_call (average rf_pred_proba xgb_pred_proba);
  predicted_idx ← no_call (np.argmax avg_proba);
  countries ← obj_rf_classes_ objs;
  let confidence_scores := dict_of_pairs (zip countries avg_proba) in
  country ← no_call (np.getitem countries predicted_idx);
  mret (country, confidence_scores).

(** The body of the outer [try] on stateful objects. *)
Definition predict_body_call {Heap} (objs : ObjectArtifacts Heap)
    (clock : Clock) (wine : WineInput) : call Heap PredictionResponse :=
  let start_time := time_start clock in
  X ← features_call objs wine;
  '(country, confidence_scores) ← ensemble_call objs X;
  let prediction_time := time_end clock - start_time in
  mret {| predicted_country := country;
          confidence_scores := confidence_scores;
          prediction_time := prediction_time;
          model_version := "1.0.0";
          timestamp := now_isoformat clock |}.

(** [POST /predict] on a process whose flag is [models_loaded] and whose
    five names are bound to [objs]: the outcome and the heap it leaves. *)
Definition predict_wine_origin_call {Heap} (models_loaded : bool)
    (objs : ObjectArtifacts Heap) (clock : Clock) (wine : WineInput)
    (σ : Heap) : http_result * Heap :=
  if negb models_loaded then
    (HTTPException 503 "Models not loaded. Please check server logs.", σ)
  else
    match predict_body_call objs clock wine σ with
    | (Ok r, σ') => (Response r, σ')
    | (Raise e, σ') =>
        (HTTPException 500 ("Prediction error: " +:+ str e), σ')
    end.

(** The call [c] leaves the heap as it found it. *)
Definition leaves_heap {Heap A} (c : call Heap A) : Prop :=
  ∀ σ, (c σ).2 = σ.

(** The objects are read-only: no method or attribute the handler uses
    changes the heap. *)
Definition read_only {Heap} (objs : ObjectArtifacts Heap) : Prop :=
  (∀ X, leaves_heap (obj_rf_predict_proba objs X))
  ∧ leaves_heap (obj_rf_classes_ objs)
  ∧ (∀ X, leaves_heap (obj_xgb_predict_proba objs X))
  ∧ (∀ text, leaves_heap (obj_tfidf_transform objs text))
  ∧ (∀ category, leaves_heap (obj_encoder_transform objs category))
  ∧ leaves_heap (obj_get_feature_names_out objs)
  ∧ (∀ row, leaves_heap (obj_scaler_transform objs row)).

(** The objects whose methods are the functions of [a] and touch no heap. *)
Definition stateless_objects {Heap} (a : Artifacts) : ObjectArtifacts Heap :=
  {| obj_rf_predict_proba X := no_call (predict_proba (art_rf a) X);
     obj_rf_classes_ := no_call (Ok (classes_ (art_rf a)));
     obj_xgb_predict_proba X := no_call (predict_proba (art_xgb a) X);
     obj_tfidf_transform text := no_call (tfidf_transform (art_tfidf a) text);
     obj_encoder_transform category :=
       no_call (encoder_transform (art_encoder a) category);
     obj_get_feature_names_out :=
       no_call (get_feature_names_out (art_encoder a));
     obj_scaler_transform row :=
       no_call (scaler_transform (art_scaler a) row) |}.

(** Objects over a heap holding a call counter: classifier A counts its
    calls and answers differently on odd-numbered ones. *)
Definition example_counting_objects : ObjectArtifacts nat :=
  {| obj_rf_predict_proba X := λ n,
       (Ok (if Nat.even n then [Q2Qc (3 # 4); Q2Qc (1 # 4)]
            else [Q2Qc (1 # 4); Q2Qc (3 # 4)]), S n);
     obj_rf_classes_ := no_call (Ok ["France"; "Italy"]);
     obj_xgb_predict_proba X := no_call (Ok [Q2Qc (1 # 2); Q2Qc (1 # 2)]);
     obj_tfidf_transform text := no_call (Ok [0]);
     obj_encoder_transform category := no_call (Ok [1]);
     obj_get_feature_names_out := no_call (Ok ["variety_Merlot"]);
     obj_scaler_transform row := no_call (Ok row) |}.

(** ** Facts about the numpy operations *)

Lemma first_max_unique a i j : first_max a i → first_max a j → i = j.
Proof.
  intros (m & Hi & Hle & Hlt) (m' & Hj & Hle' & Hlt').
  destruct (lt_eq_lt_dec i j) as [[Hij | ->] | Hji]; [| done |].
  - specialize (Hlt' _ _ Hi Hij). specialize (Hle _ _ Hj).
    exfalso. by eapply Qclt_not_le.
  - specialize (Hlt _ _ Hj Hji). specialize (Hle' _ _ Hi).
    exfalso. by eapply Qclt_not_le.
Qed.

Lemma argmax_from_first_max l : ∀ pre mp idx,
  first_max pre idx → pre !! idx = Some mp →
  first_max (pre ++ l) (np.argmax_from mp idx (length pre) l).
Proof.
  induction l as [| x l IH]; intros pre mp idx Hfm Hidx; simpl.
  - by rewrite app_nil_r.
  - destruct Hfm as (m & Hm & Hle & Hlt).
    assert (m = mp) as -> by congruence.
    replace (pre ++ x :: l) with ((pre ++ [x]) ++ l) by by rewrite <- app_assoc.
    replace (S (length pre)) with (length (pre ++ [x]))
      by (rewrite length_app; simpl; lia).
    destruct (decide (x ≤ mp)) as [Hx | Hx].
    + apply IH.
      * exists mp. split_and!.
        -- apply lookup_app_l_Some. done.
        -- intros j y Hj. apply lookup_snoc_Some in Hj as [[_ Hj] | [_ <-]]; eauto.
        -- intros j y Hj Hlt'. apply lookup_snoc_Some in Hj as [[_ Hj] | [Hj' <-]].
           ++ eauto.
           ++ apply lookup_lt_Some in Hidx. lia.
      * apply lookup_app_l_Some. done.
    + apply Qcnot_le_lt in Hx.
      assert ((pre ++ [x]) !! length pre = Some x) as Hlast
        by (rewrite lookup_app_r, Nat.sub_diag; done).
      apply IH; [| done].
      exists x. split_and!; [done | |].
      * intros j y Hj. apply lookup_snoc_Some in Hj as [[_ Hj] | [_ <-]].
        -- apply Qclt_le_weak, Qcle_lt_trans with mp; [by eapply Hle | done].
        -- apply Qcle_refl.
      * intros j y Hj Hlt'. apply lookup_snoc_Some in Hj as [[_ Hj] | [Hj' <-]].
        -- apply Qcle_lt_trans with mp; [by eapply Hle | done].
        -- lia.
Qed.

Lemma argmax_first_max a i : np.argmax a = Ok i → first_max a i.
Proof.
  destruct a as [| x l]; [done |]. simpl. intros [= <-].
  apply (argmax_from_first_max l [x] x 0). 2: done.
  exists x. split_and!; [done | |].
  - intros [| j] y Hj; simplify_eq/=. apply Qcle_refl.
  - intros j y _ Hlt. lia.
Qed.

Lemma argmax_Ok a : a ≠ [] → ∃ i, np.argmax a = Ok i.
Proof. destruct a; [done |]. eauto. Qed.

Lemma first_max_argmax a i : first_max a i → np.argmax a = Ok i.
Proof.
  intros Hfm. destruct (argmax_Ok a) as [j Hj].
  - destruct Hfm as (m & Hm & _). by destruct a.
  - rewrite Hj. f_equal. eapply first_max_unique; [| done].
    by apply argmax_first_max.
Qed.

Lemma average_equal_shapes Pa Pb :
  length Pa = length Pb →
  average Pa Pb = Ok (zip_with (λ p q, (p + q) / Q2Qc 2) Pa Pb).
Proof.
  intros Hlen. unfold average, np.add.
  rewrite decide_True by done. simpl. f_equal.
  clear Hlen. revert Pb.
  induction Pa as [| p Pa IH]; intros [| q Pb]; simpl; [done.. |].
  by rewrite <- IH.
Qed.

Lemma sum_Permutation l1 l2 : l1 ≡ₚ l2 → np.sum l1 = np.sum l2.
Proof.
  induction 1 as [| x l1 l2 _ IH | x y l | l1 l2 l3 _ IH1 _ IH2]; simpl.
  - done.
  - by rewrite IH.
  - ring.
  - congruence.
Qed.

Lemma sum_average Pa Pb :
  length Pa = length Pb →
  np.sum (zip_with (λ p q, (p + q) / Q2Qc 2) Pa Pb)
  = (np.sum Pa + np.sum Pb) / Q2Qc 2.
Proof.
  revert Pb. induction Pa as [| p Pa IH]; intros [| q Pb] Hlen;
    simplify_eq/=.
  - by field.
  - rewrite IH by done. by field.
Qed.

(** ** Facts about dictionaries *)

Lemma dict_of_pairs_snoc {V} (l : list (string * V)) k v :
  dict_of_pairs (l ++ [(k, v)]) = <[k := v]> (dict_of_pairs l).
Proof. unfold dict_of_pairs. by rewrite foldl_app. Qed.

Lemma dict_of_pairs_list_to_map {V} (l : list (string * V)) :
  dict_of_pairs l = list_to_map (reverse l).
Proof.
  induction l as [| [k v] l IH] using rev_ind; [done |].
  by rewrite dict_of_pairs_snoc, reverse_snoc, IH.
Qed.

Lemma dom_dict_of_pairs {V} (l : list (string * V)) :
  dom (dict_of_pairs l) = list_to_set l.*1.
Proof.
  rewrite dict_of_pairs_list_to_map, dom_list_to_map_L, fmap_reverse.
  apply set_eq. intros k. by rewrite !elem_of_list_to_set, elem_of_reverse.
Qed.

Lemma NoDup_fst_reverse {V} (l : list (string * V)) :
  NoDup l.*1 → NoDup (reverse l).*1.
Proof. intros. by rewrite fmap_reverse, reverse_Permutation. Qed.

Lemma lookup_dict_of_pairs {V} (l : list (string * V)) k v :
  NoDup l.*1 → dict_of_pairs l !! k = Some v ↔ (k, v) ∈ l.
Proof.
  intros Hnd. rewrite dict_of_pairs_list_to_map.
  rewrite <- elem_of_list_to_map by by apply NoDup_fst_reverse.
  apply elem_of_reverse.
Qed.

Lemma dict_values_of_pairs {V} (l : list (string * V)) :
  NoDup l.*1 → dict_values (dict_of_pairs l) ≡ₚ l.*2.
Proof.
  intros Hnd. unfold dict_values. rewrite dict_of_pairs_list_to_map.
  rewrite map_to_list_to_map by by apply NoDup_fst_reverse.
  by rewrite reverse_Permutation.
Qed.

(** ** The ensemble decision *)

Lemma ensemble_loaded a X :
  ensemble (loaded a) X =
    (rf_pred_proba ← predict_proba (art_rf a) X;
     xgb_pred_proba ← predict_proba (art_xgb a) X;
     avg_proba ← average rf_pred_proba xgb_pred_proba;
     predicted_idx ← np.argmax avg_proba;
     country ← np.getitem (classes_ (art_rf a)) predicted_idx;
     Ok (country, dict_of_pairs (zip (classes_ (art_rf a)) avg_proba))).
Proof. done. Qed.

Lemma ensemble_equal_shapes (a : Artifacts) (X Pa Pb : list float) :
  predict_proba (art_rf a) X = Ok Pa →
  predict_proba (art_xgb a) X = Ok Pb →
  length Pa = length Pb →
  let avg := zip_with (λ p q, (p + q) / Q2Qc 2) Pa Pb in
  ensemble (loaded a) X =
    (predicted_idx ← np.argmax avg;
     country ← np.getitem (classes_ (art_rf a)) predicted_idx;
     Ok (country, dict_of_pairs (zip (classes_ (art_rf a)) avg))).
Proof.
  intros Hrf Hxgb Hlen avg.
  rewrite ensemble_loaded, Hrf, Hxgb. simpl.
  by rewrite average_equal_shapes.
Qed.

Lemma getitem_Ok {A} (l : list A) i x : l !! i = Some x → np.getitem l i = Ok x.
Proof. unfold np.getitem. by intros ->. Qed.



Lemma ensemble_Ok (a : Artifacts) (X Pa Pb : list float) :
  predict_proba (art_rf a) X = Ok Pa →
  predict_proba (art_xgb a) X = Ok Pb →
  length Pa = length (classes_ (art_rf a)) →
  length Pb = length (classes_ (art_rf a)) →
  classes_ (art_rf a) ≠ [] →
  let avg := zip_with (λ p q, (p + q) / Q2Qc 2) Pa Pb in
  ∃ i label, first_max avg i
             ∧ classes_ (art_rf a) !! i = Some label
             ∧ ensemble (loaded a) X
               = Ok (label, dict_of_pairs (zip (classes_ (art_rf a)) avg)).
Proof.
  intros Hrf Hxgb Ha Hb Hne avg.
  assert (length avg = length (classes_ (art_rf a))) as Havg
    by (unfold avg; rewrite length_zip_with; lia).
  destruct (argmax_Ok avg) as [i Hi].
  { intros E. rewrite E in Havg. by destruct (classes_ (art_rf a)). }
  apply argmax_first_max in Hi as Hfm.
  destruct Hfm as (m & Hm & _).
  destruct (lookup_lt_is_Some_2 (classes_ (art_rf a)) i) as [label Hl].
  { apply lookup_lt_Some in Hm. lia. }
  exists i, label. split_and!; [by apply argmax_first_max | done |].
  rewrite (ensemble_equal_shapes a X Pa Pb Hrf Hxgb) by congruence.
  fold avg. rewrite Hi. simpl. by rewrite (getitem_Ok _ _ _ Hl).
Qed.

(** ** The feature row *)

Lemma hstack3 (u v w : list float) : np.hstack [u; v; w] = u ++ v ++ w.
Proof. unfold np.hstack. simpl. by rewrite app_nil_r. Qed.

Lemma features_loaded a wine :
  features (loaded a) wine =
    (X_text ← tfidf_transform (art_tfidf a) (description wine);
     X_variety ← encode_variety (art_encoder a) (variety wine);
     X_numerical ← scaler_transform (art_scaler a) [price wine; points wine];
     Ok (X_text ++ X_variety ++ X_numerical)).
Proof.
  unfold features. simpl.
  destruct (tfidf_transform _ _); [| done]. simpl.
  destruct (encode_variety _ _); [| done]. simpl.
  destruct (scaler_transform _ _); [| done]. simpl.
  by rewrite app_nil_r.
Qed.

Lemma encode_variety_known enc category row :
  encoder_transform enc category = Ok row →
  encode_variety enc category = Ok row.
Proof. unfold encode_variety. by intros ->. Qed.

Lemma encode_variety_unknown enc category msg names :
  encoder_transform enc category = Raise (ValueError msg) →
  get_feature_names_out enc = Ok names →
  encode_variety enc category = Ok (np.zeros (length names)).
Proof. unfold encode_variety. by intros -> ->. Qed.

(** C2. When the vectorizer returns [X_text], the encoder either returns a
    row as wide as its feature names or raises [ValueError], and the scaler
    returns the two-entry row [X_numerical], the feature row is [X_text],
    then the category row, then [X_numerical], and its length is
    [len(text features) + len(variety features) + 2]. *)
Theorem feature_row_layout (a : Artifacts) (wine : WineInput)
    (X_text X_numerical : list float) (names : list string) :
  tfidf_transform (art_tfidf a) (description wine) = Ok X_text →
  get_feature_names_out (art_encoder a) = Ok names →
  (∀ row, encoder_transform (art_encoder a) (variety wine) = Ok row →
          length row = length names) →
  (∀ e, encoder_transform (art_encoder a) (variety wine) = Raise e →
        ∃ msg, e = ValueError msg) →
  scaler_transform (art_scaler a) [price wine; points wine] = Ok X_numerical →
  length X_numerical = 2%nat →
  ∃ X_variety X,
    encode_variety (art_encoder a) (variety wine) = Ok X_variety
    ∧ features (loaded a) wine = Ok X
    ∧ X = X_text ++ X_variety ++ X_numerical
    ∧ length X = (length X_text + length names + 2)%nat.
Proof.
  intros Htext Hnames Hwidth Hexn Hnum Hlen.
  assert (∃ X_variety, encode_variety (art_encoder a) (variety wine)
                       = Ok X_variety
                       ∧ length X_variety = length names) as (Xv & HXv & HlenXv).
  { destruct (encoder_transform (art_encoder a) (variety wine))
      as [row | e] eqn:Henc.
    - exists row. split; [by apply encode_variety_known | by apply Hwidth].
    - destruct (Hexn e eq_refl) as [msg ->].
      exists (np.zeros (length names)). split.
      + by eapply encode_variety_unknown.
      + apply length_replicate. }
  exists Xv, (X_text ++ Xv ++ X_numerical). split_and!; [done | | done |].
  - by rewrite features_loaded, Htext, HXv, Hnum.
  - rewrite !length_app. lia.
Qed.

Lemma feature_row_layout_witness :
  ∃ X_variety X,
    encode_variety (art_encoder example_artifacts) (variety get_example)
    = Ok X_variety
    ∧ features (loaded example_artifacts) get_example = Ok X
    ∧ X = [Q2Qc (1 # 3); 0] ++ X_variety ++ [Q2Qc (1 # 4); Q2Qc (4 # 3)]
    ∧ length X = (2 + 2 + 2)%nat.
Proof.
  apply (feature_row_layout example_artifacts get_example
           [Q2Qc (1 # 3); 0] [Q2Qc (1 # 4); Q2Qc (4 # 3)]
           ["variety_Merlot"; "variety_Cabernet Sauvignon"]).
  - reflexivity.
  - reflexivity.
  - intros row. vm_compute. intros [= <-]. reflexivity.
  - intros e. vm_compute. discriminate.
  - vm_compute. Qc_rows.
  - reflexivity.
Defined.

(** ** The handler on a ready server *)

Lemma predict_body_Ok a clock wine X label conf :
  features (loaded a) wine = Ok X →
  ensemble (loaded a) X = Ok (label, conf) →
  predict_body (loaded a) clock wine
  = Ok {| predicted_country := label;
          confidence_scores := conf;
          prediction_time := time_end clock - time_start clock;
          model_version := "1.0.0";
          timestamp := now_isoformat clock |}.
Proof.
  intros HX Hens. unfold predict_body.
  rewrite HX. simpl. by rewrite Hens.
Qed.

Lemma predict_Response a clock wine X label conf :
  features (loaded a) wine = Ok X →
  ensemble (loaded a) X = Ok (label, conf) →
  predict_wine_origin (loaded a) clock wine
  = Response {| predicted_country := label;
                confidence_scores := conf;
                prediction_time := time_end clock - time_start clock;
                model_version := "1.0.0";
                timestamp := now_isoformat clock |}.
Proof.
  intros HX Hens. unfold predict_wine_origin. simpl.
  by rewrite (predict_body_Ok _ _ _ _ _ _ HX Hens).
Qed.

Lemma predict_Response_inv a clock wine r :
  predict_wine_origin (loaded a) clock wine = Response r →
  ∃ X, features (loaded a) wine = Ok X
       ∧ ensemble (loaded a) X
         = Ok (predicted_country r, confidence_scores r).
Proof.
  unfold predict_wine_origin, predict_body. simpl.
  destruct (features (loaded a) wine) as [X |] eqn:HX; [| done]. simpl.
  destruct (ensemble (loaded a) X) as [[label conf] |] eqn:Hens; [| done].
  simpl. intros [= <-]. by exists X.
Qed.

Lemma ensemble_Ok_inv a X label conf :
  ensemble (loaded a) X = Ok (label, conf) →
  ∃ Pa Pb avg i,
    predict_proba (art_rf a) X = Ok Pa
    ∧ predict_proba (art_xgb a) X = Ok Pb
    ∧ average Pa Pb = Ok avg
    ∧ np.argmax avg = Ok i
    ∧ classes_ (art_rf a) !! i = Some label
    ∧ conf = dict_of_pairs (zip (classes_ (art_rf a)) avg).
Proof.
  rewrite ensemble_loaded.
  destruct (predict_proba (art_rf a) X) as [Pa |] eqn:Hrf; [| done]. simpl.
  destruct (predict_proba (art_xgb a) X) as [Pb |] eqn:Hxgb; [| done]. simpl.
  destruct (average Pa Pb) as [avg |] eqn:Havg; [| done]. simpl.
  destruct (np.argmax avg) as [i |] eqn:Hi; [| done]. simpl.
  unfold np.getitem.
  destruct (classes_ (art_rf a) !! i) as [c |] eqn:Hc; [| done]. simpl.
  intros [= <- <-]. by exists Pa, Pb, avg, i.
Qed.

(** C3. With an encoder fitted on [categories], a variety outside
    [categories] is encoded as the all-zero row of length [len(categories)]
    with no error, that row takes the category's place in the feature row,
    and, the classifiers answering that row with one probability per class,
    the handler returns a prediction whose country is one of the classes. *)
Theorem unseen_variety_zero_row (a : Artifacts) (categories : list string)
    (clock : Clock) (wine : WineInput)
    (X_text X_numerical Pa Pb : list float) :
  art_encoder a = FittedEncoder categories →
  variety wine ∉ categories →
  tfidf_transform (art_tfidf a) (description wine) = Ok X_text →
  scaler_transform (art_scaler a) [price wine; points wine] = Ok X_numerical →
  let X := X_text ++ replicate (length categories) 0 ++ X_numerical in
  predict_proba (art_rf a) X = Ok Pa →
  predict_proba (art_xgb a) X = Ok Pb →
  length Pa = length (classes_ (art_rf a)) →
  length Pb = length (classes_ (art_rf a)) →
  classes_ (art_rf a) ≠ [] →
  encode_variety (art_encoder a) (variety wine)
  = Ok (replicate (length categories) 0)
  ∧ features (loaded a) wine = Ok X
  ∧ ∃ r, predict_wine_origin (loaded a) clock wine = Response r
         ∧ predicted_country r ∈ classes_ (art_rf a).
Proof.
  intros Henc Hunseen Htext Hnum X Hrf Hxgb Ha Hb Hne.
  assert (encode_variety (art_encoder a) (variety wine)
          = Ok (replicate (length categories) 0)) as Hzero.
  { rewrite Henc. unfold encode_variety, FittedEncoder. simpl.
    rewrite decide_False by done. simpl.
    unfold np.zeros. by rewrite length_fmap. }
  assert (features (loaded a) wine = Ok X) as HX
    by by rewrite features_loaded, Htext, Hzero, Hnum.
  split_and!; [done.. |].
  destruct (ensemble_Ok a X Pa Pb Hrf Hxgb Ha Hb Hne)
    as (i & label & _ & Hlabel & Hens).
  eexists. split; [by eapply predict_Response |].
  simpl. by eapply list_elem_of_lookup_2.
Qed.

Lemma unseen_variety_zero_row_witness :
  encode_variety (art_encoder example_artifacts) "Zzz-Unknown-Grape-000"
  = Ok [0; 0]
  ∧ features (loaded example_artifacts) example_unknown_wine
    = Ok ([Q2Qc (1 # 3); 0] ++ [0; 0] ++ [Q2Qc (-7 # 8); Q2Qc 4])
  ∧ ∃ r, predict_wine_origin (loaded example_artifacts) example_clock
           example_unknown_wine = Response r
         ∧ predicted_country r ∈ ["France"; "Italy"; "US"].
Proof.
  apply (unseen_variety_zero_row example_artifacts
           ["Merlot"; "Cabernet Sauvignon"] example_clock example_unknown_wine
           [Q2Qc (1 # 3); 0] [Q2Qc (-7 # 8); Q2Qc 4]
           [Q2Qc (1 # 2); Q2Qc (1 # 4); Q2Qc (1 # 4)]
           [Q2Qc (1 # 4); Q2Qc (1 # 2); Q2Qc (1 # 4)]).
  - reflexivity.
  - vm_compute. intros H. by repeat (inversion H as [| ? ? ? H']; clear H; rename H' into H; subst).
  - reflexivity.
  - vm_compute. Qc_rows.
  - reflexivity.
  - reflexivity.
  - reflexivity.
  - reflexivity.
  - discriminate.
Defined.

Lemma sum_nil_classes (P : list float) (classes : list string) :
  length P = length classes → np.sum P = 1 → classes ≠ [].
Proof.
  intros Hlen Hsum ->. destruct P; simplify_eq/=.
Qed.

(** C4. When each classifier answers the feature row with a vector of one
    probability per class of a duplicate-free class list, each vector
    summing to 1, the handler returns a response whose confidence scores sum
    to 1 (so within [1e-6] of 1), and whose predicted country is a key of
    the confidence scores that holds their largest value. *)
Theorem confidence_scores_sum_argmax (a : Artifacts) (clock : Clock)
    (wine : WineInput) (X Pa Pb : list float) :
  features (loaded a) wine = Ok X →
  predict_proba (art_rf a) X = Ok Pa →
  predict_proba (art_xgb a) X = Ok Pb →
  length Pa = length (classes_ (art_rf a)) →
  length Pb = length (classes_ (art_rf a)) →
  NoDup (classes_ (art_rf a)) →
  np.sum Pa = 1 →
  np.sum Pb = 1 →
  ∃ r m,
    predict_wine_origin (loaded a) clock wine = Response r
    ∧ np.sum (dict_values (confidence_scores r)) = 1
    ∧ 1 - tolerance ≤ np.sum (dict_values (confidence_scores r))
    ∧ np.sum (dict_values (confidence_scores r)) ≤ 1 + tolerance
    ∧ confidence_scores r !! predicted_country r = Some m
    ∧ ∀ k v, confidence_scores r !! k = Some v → v ≤ m.
Proof.
  intros HX Hrf Hxgb Ha Hb Hnd Hsa Hsb.
  pose proof (sum_nil_classes _ _ Ha Hsa) as Hne.
  destruct (ensemble_Ok a X Pa Pb Hrf Hxgb Ha Hb Hne)
    as (i & label & (m & Hm & Hle & _) & Hlabel & Hens).
  set (avg := zip_with (λ p q, (p + q) / Q2Qc 2) Pa Pb) in *.
  set (classes := classes_ (art_rf a)) in *.
  assert (length avg = length classes) as Havg
    by (unfold avg; rewrite length_zip_with; lia).
  assert (NoDup (zip classes avg).*1) as Hnd'
    by (rewrite fst_zip by lia; done).
  assert (np.sum (dict_values (dict_of_pairs (zip classes avg))) = 1) as Hsum.
  { rewrite (sum_Permutation _ _ (dict_values_of_pairs _ Hnd')).
    rewrite snd_zip by lia. unfold avg.
    rewrite sum_average by congruence. rewrite Hsa, Hsb.
    apply Qc_is_canon. reflexivity. }
  eexists _, m. split; [by eapply predict_Response |]. simpl.
  split_and!.
  - done.
  - rewrite Hsum. by apply (bool_decide_unpack _).
  - rewrite Hsum. by apply (bool_decide_unpack _).
  - apply lookup_dict_of_pairs; [done |].
    apply list_elem_of_lookup. exists i.
    apply lookup_zip_with_Some. eauto.
  - intros k v Hk. apply lookup_dict_of_pairs in Hk; [| done].
    apply list_elem_of_lookup in Hk as [j Hj].
    apply lookup_zip_with_Some in Hj as (k' & v' & [= <- <-] & _ & Hv).
    eauto.
Qed.

Lemma confidence_scores_sum_argmax_witness :
  ∃ r m,
    predict_wine_origin (loaded example_artifacts) example_clock get_example
    = Response r
    ∧ np.sum (dict_values (confidence_scores r)) = 1
    ∧ 1 - tolerance ≤ np.sum (dict_values (confidence_scores r))
    ∧ np.sum (dict_values (confidence_scores r)) ≤ 1 + tolerance
    ∧ confidence_scores r !! predicted_country r = Some m
    ∧ ∀ k v, confidence_scores r !! k = Some v → v ≤ m.
Proof.
  apply (confidence_scores_sum_argmax example_artifacts example_clock
           get_example
           ([Q2Qc (1 # 3); 0] ++ [0; 1] ++ [Q2Qc (1 # 4); Q2Qc (4 # 3)])
           [Q2Qc (1 # 2); Q2Qc (1 # 4); Q2Qc (1 # 4)]
           [Q2Qc (1 # 4); Q2Qc (1 # 2); Q2Qc (1 # 4)]).
  - vm_compute. Qc_rows.
  - reflexivity.
  - reflexivity.
  - reflexivity.
  - reflexivity.
  - apply (bool_decide_unpack _). vm_compute. reflexivity.
  - apply Qc_is_canon. reflexivity.
  - apply Qc_is_canon. reflexivity.
Defined.

(** C5. Whatever class list classifier B carries, the handler answers as it
    does with any other class list for B (so it compares no label sets and
    never reads B's), and in a response the predicted country and every key
    of the confidence scores are classes of classifier A. *)
Theorem labels_only_from_classifier_A (a : Artifacts) (clock : Clock)
    (wine : WineInput) (classes_b : list string) :
  predict_wine_origin (loaded (relabel_xgb a classes_b)) clock wine
  = predict_wine_origin (loaded a) clock wine
  ∧ match predict_wine_origin (loaded a) clock wine with
    | Response r =>
        predicted_country r ∈ classes_ (art_rf a)
        ∧ dom (confidence_scores r) ⊆ list_to_set (classes_ (art_rf a))
    | HTTPException _ _ => True
    end.
Proof.
  split; [done |].
  destruct (predict_wine_origin (loaded a) clock wine) as [r |] eqn:Hr;
    [| done].
  apply predict_Response_inv in Hr as (X & _ & Hens).
  apply ensemble_Ok_inv in Hens
    as (Pa & Pb & avg & i & _ & _ & _ & _ & Hlabel & ->).
  split; [by eapply list_elem_of_lookup_2 |].
  rewrite dom_dict_of_pairs. intros k Hk.
  apply elem_of_list_to_set in Hk. apply elem_of_list_to_set.
  apply list_elem_of_fmap in Hk as ([k' v] & -> & Hin). simpl.
  apply list_elem_of_lookup in Hin as [j Hj].
  apply lookup_zip_with_Some in Hj as (? & ? & [= <- <-] & Hk' & _).
  by eapply list_elem_of_lookup_2.
Qed.

Lemma predict_same_prediction st clock1 clock2 wine :
  same_prediction (predict_wine_origin st clock1 wine)
                  (predict_wine_origin st clock2 wine).
Proof.
  unfold same_prediction, predict_wine_origin, predict_body.
  destruct (MODELS_LOADED st); simpl; [| done].
  destruct (features st wine) as [X |]; simpl; [| done].
  destruct (ensemble st X) as [[label conf] |]; simpl; done.
Qed.

(** ** The scaler *)

Lemma StandardScaler_pair m1 m2 s1 s2 x1 x2 :
  scaler_transform (StandardScaler [m1; m2] [s1; s2]) [x1; x2]
  = Ok [(x1 - m1) / s1; (x2 - m2) / s2].
Proof. done. Qed.

Lemma scaled_inj (m s x y : float) :
  s ≠ 0 → (x - m) / s = (y - m) / s → x = y.
Proof.
  intros Hs Heq.
  assert (x = (x - m) / s * s + m) as -> by by field.
  rewrite Heq. by field.
Qed.

Lemma row_head_inj (x y : float) (l k : list float) :
  x :: l = y :: k → x = y.
Proof. by intros [= -> _]. Qed.

#[global] Instance Ok_inj {A} : Inj (=) (=) (@Ok A).
Proof. by intros x y [= ->]. Qed.

(** C6. In exact arithmetic: with a scaler of means [m1], [m2] and nonzero
    standard deviations [s1], [s2], the handler gives the scaler the price
    first and the points second, so that the feature row ends with
    [(price - m1) / s1, (points - m2) / s2], and the row of the input with
    price and points exchanged ends with
    [(points - m1) / s1, (price - m2) / s2]; when price and points differ,
    the scaler maps the two orders to different vectors and the two feature
    rows differ. *)
Theorem scaler_order_sensitive (a : Artifacts) (wine : WineInput)
    (m1 m2 s1 s2 : float) (X_text X_variety : list float) :
  art_scaler a = StandardScaler [m1; m2] [s1; s2] →
  tfidf_transform (art_tfidf a) (description wine) = Ok X_text →
  encode_variety (art_encoder a) (variety wine) = Ok X_variety →
  s1 ≠ 0 →
  s2 ≠ 0 →
  price wine ≠ points wine →
  features (loaded a) wine
  = Ok (X_text ++ X_variety
        ++ [(price wine - m1) / s1; (points wine - m2) / s2])
  ∧ features (loaded a) (swap_price_points wine)
    = Ok (X_text ++ X_variety
          ++ [(points wine - m1) / s1; (price wine - m2) / s2])
  ∧ scaler_transform (art_scaler a) [price wine; points wine]
    ≠ scaler_transform (art_scaler a) [points wine; price wine]
  ∧ features (loaded a) wine ≠ features (loaded a) (swap_price_points wine).
Proof.
  intros Hsc Htext Hvar Hs1 Hs2 Hne. rewrite !features_loaded.
  cbn [swap_price_points description variety price points].
  rewrite Htext, Hvar, Hsc, !StandardScaler_pair. simpl.
  split_and!; [done | done | |].
  - intros H. apply (inj Ok), row_head_inj in H.
    by apply Hne, (scaled_inj m1 s1).
  - intros H. apply (inj Ok), app_inv_head, app_inv_head in H.
    apply row_head_inj in H. by apply Hne, (scaled_inj m1 s1).
Qed.

Lemma scaler_order_sensitive_witness :
  features (loaded example_artifacts) get_example
  = Ok ([Q2Qc (1 # 3); 0] ++ [0; 1]
        ++ [(Q2Qc 45 - Q2Qc 35) / Q2Qc 40; (Q2Qc 92 - Q2Qc 88) / Q2Qc 3])
  ∧ features (loaded example_artifacts) (swap_price_points get_example)
    = Ok ([Q2Qc (1 # 3); 0] ++ [0; 1]
          ++ [(Q2Qc 92 - Q2Qc 35) / Q2Qc 40; (Q2Qc 45 - Q2Qc 88) / Q2Qc 3])
  ∧ scaler_transform (art_scaler example_artifacts) [Q2Qc 45; Q2Qc 92]
    ≠ scaler_transform (art_scaler example_artifacts) [Q2Qc 92; Q2Qc 45]
  ∧ features (loaded example_artifacts) get_example
    ≠ features (loaded example_artifacts) (swap_price_points get_example).
Proof.
  apply (scaler_order_sensitive example_artifacts get_example
           (Q2Qc 35) (Q2Qc 88) (Q2Qc 40) (Q2Qc 3) [Q2Qc (1 # 3); 0] [0; 1]).
  - reflexivity.
  - reflexivity.
  - reflexivity.
  - discriminate.
  - discriminate.
  - discriminate.
Defined.

(** In binary64 the claim of C6 fails: a price of 1e-30 and points of 2e-30
    are within the bounds of the request model and differ, the stored
    deviations 40 and 3 are finite and nonzero, and the scaler of means 35
    and 88 maps the row and the exchanged row to the same vector, rounding
    having absorbed both values into the means. *)
Lemma scaler_order_binary64_counterexample :
  binary64.price_Field binary64.tiny_price = true
  ∧ binary64.points_Field binary64.tiny_points = true
  ∧ PrimFloat.eqb binary64.tiny_price binary64.tiny_points = false
  ∧ binary64.tiny_price ≠ binary64.tiny_points
  ∧ binary64.scale binary64.example_mean_ binary64.example_scale_
      [binary64.tiny_price; binary64.tiny_points]
    = binary64.scale binary64.example_mean_ binary64.example_scale_
        [binary64.tiny_points; binary64.tiny_price].
Proof.
  split_and!; try (vm_compute; reflexivity).
  intros H.
  apply (f_equal (PrimFloat.eqb binary64.tiny_price)) in H.
  vm_compute in H. discriminate.
Qed.

(** C10. A scaler with means [m1], [m2] and deviations [s1], [s2] turns the
    row [price, points] of any input into
    [(price - m1) / s1, (points - m2) / s2] without raising, the handler
    puts that row at the end of the feature row without a range check of
    its own, and the field constraints of the request model accept
    [points = 0], [points = 100], [price = 0] and [price = 10000]. *)
Theorem boundary_values_scaled (a : Artifacts) (wine : WineInput)
    (m1 m2 s1 s2 : float) (X_text X_variety : list float) :
  art_scaler a = StandardScaler [m1; m2] [s1; s2] →
  tfidf_transform (art_tfidf a) (description wine) = Ok X_text →
  encode_variety (art_encoder a) (variety wine) = Ok X_variety →
  scaler_transform (art_scaler a) [price wine; points wine]
  = Ok [(price wine - m1) / s1; (points wine - m2) / s2]
  ∧ features (loaded a) wine
    = Ok (X_text ++ X_variety
          ++ [(price wine - m1) / s1; (points wine - m2) / s2])
  ∧ points_Field 0 = true
  ∧ points_Field (Q2Qc 100) = true
  ∧ price_Field 0 = true
  ∧ price_Field (Q2Qc 10000) = true.
Proof.
  intros Hsc Htext Hvar.
  rewrite features_loaded, Htext, Hvar, Hsc, StandardScaler_pair.
  split_and!; done.
Qed.

Lemma boundary_values_scaled_witness :
  scaler_transform (art_scaler example_artifacts) [0; Q2Qc 100]
  = Ok [(0 - Q2Qc 35) / Q2Qc 40; (Q2Qc 100 - Q2Qc 88) / Q2Qc 3]
  ∧ features (loaded example_artifacts) example_unknown_wine
    = Ok ([Q2Qc (1 # 3); 0] ++ [0; 0]
          ++ [(0 - Q2Qc 35) / Q2Qc 40; (Q2Qc 100 - Q2Qc 88) / Q2Qc 3])
  ∧ points_Field 0 = true
  ∧ points_Field (Q2Qc 100) = true
  ∧ price_Field 0 = true
  ∧ price_Field (Q2Qc 10000) = true.
Proof.
  apply (boundary_values_scaled example_artifacts example_unknown_wine
           (Q2Qc 35) (Q2Qc 88) (Q2Qc 40) (Q2Qc 3) [Q2Qc (1 # 3); 0] [0; 0]).
  - reflexivity.
  - reflexivity.
  - reflexivity.
Defined.

(** ** Startup and readiness *)

Lemma startup_load_failed d : load_failed d → MODELS_LOADED (startup d) = false.
Proof.
  unfold startup.
  intros [[e H] | [[e H] | [[e H] | [[e H] | [e H]]]]]; rewrite H;
    repeat case_match; done.
Qed.

Lemma startup_all_loaded d rf xgb tf enc sc :
  makedirs d = Ok () →
  random_forest_tfidf_pkl d = Ok rf →
  xgboost_tfidf_pkl d = Ok xgb →
  tfidf_vectorizer_pkl d = Ok tf →
  onehot_encoder_pkl d = Ok enc →
  scaler_pkl d = Ok sc →
  startup d = loaded {| art_rf := rf; art_xgb := xgb; art_tfidf := tf;
                        art_encoder := enc; art_scaler := sc |}.
Proof. unfold startup. by intros -> -> -> -> -> ->. Qed.

Lemma handle_state st clock req : (handle st clock req).1 = st.
Proof. by destruct req. Qed.

Lemma serve_state st reqs : (serve st reqs).1 = st.
Proof.
  induction reqs as [| [clock req] reqs IH]; [done |]. simpl.
  pose proof (handle_state st clock req) as Hst.
  destruct (handle st clock req) as [st' rep]. simpl in Hst. subst st'.
  by destruct (serve st reqs).
Qed.

Lemma predict_unready st clock wine :
  MODELS_LOADED st = false →
  predict_wine_origin st clock wine = service_unavailable.
Proof. unfold predict_wine_origin. by intros ->. Qed.

Lemma serve_unready st reqs :
  MODELS_LOADED st = false →
  all_predictions_refused reqs (serve st reqs).2.
Proof.
  intros Hst. induction reqs as [| [clock req] reqs IH]; simpl.
  - constructor.
  - pose proof (handle_state st clock req) as Hst'.
    destruct (handle st clock req) as [st' rep] eqn:Hh. simpl in Hst'.
    subst st'. destruct (serve st reqs) as [st'' reps]. simpl in *.
    constructor; [| done].
    intros wine [= ->]. simpl in Hh. injection Hh as <-.
    by rewrite predict_unready.
Qed.

Lemma serve_cons st clock req reqs :
  (serve st ((clock, req) :: reqs)).2
  = (handle st clock req).2 :: (serve st reqs).2.
Proof.
  simpl. pose proof (handle_state st clock req) as Hst.
  destruct (handle st clock req) as [st' rep]. simpl in *. subst st'.
  by destruct (serve st reqs).
Qed.

Lemma serve_app st reqs1 reqs2 :
  (serve st (reqs1 ++ reqs2)).2 = (serve st reqs1).2 ++ (serve st reqs2).2.
Proof.
  induction reqs1 as [| [clock req] reqs1 IH]; [done |].
  rewrite <- app_comm_cons, !serve_cons, IH. done.
Qed.

(** C7. When one of the five artifacts fails to load, the startup block
    leaves [MODELS_LOADED] false, and then, through any sequence of requests,
    the state stays as startup left it and every prediction request is
    answered with the 503 "Models not loaded" exception. *)
Theorem load_failure_refuses_predictions (d : ModelDir)
    (reqs : list (Clock * request)) :
  load_failed d →
  MODELS_LOADED (startup d) = false
  ∧ (serve (startup d) reqs).1 = startup d
  ∧ all_predictions_refused reqs (serve (startup d) reqs).2.
Proof.
  intros Hfail. apply startup_load_failed in Hfail.
  split_and!; [done | apply serve_state | by apply serve_unready].
Qed.

Lemma load_failure_refuses_predictions_witness :
  MODELS_LOADED (startup example_broken_dir) = false
  ∧ (serve (startup example_broken_dir)
       [(example_clock, GET_health);
        (example_clock, POST_predict get_example)]).1
    = startup example_broken_dir
  ∧ all_predictions_refused
      [(example_clock, GET_health); (example_clock, POST_predict get_example)]
      (serve (startup example_broken_dir)
         [(example_clock, GET_health);
          (example_clock, POST_predict get_example)]).2.
Proof.
  apply (load_failure_refuses_predictions example_broken_dir).
  right. right. right. left. eexists. reflexivity.
Defined.

(** ** Failures inside the prediction sequence *)

Lemma predict_loaded a clock wine :
  predict_wine_origin (loaded a) clock wine
  = match predict_body (loaded a) clock wine with
    | Ok r => Response r
    | Raise e => prediction_error e
    end.
Proof. done. Qed.

Lemma features_Raise a wine e :
  features (loaded a) wine = Raise e → step_failure a wine e.
Proof.
  rewrite features_loaded.
  destruct (tfidf_transform _ _) as [X_text |] eqn:Htext; simpl;
    [| intros [= <-]; by constructor].
  destruct (encode_variety _ _) as [X_variety |] eqn:Hvar; simpl.
  - destruct (scaler_transform _ _) as [X_num |] eqn:Hnum; simpl; [done |].
    intros [= <-]. by eapply scaler_raises.
  - intros [= <-]. unfold encode_variety in Hvar.
    destruct (encoder_transform _ _) as [row | e'] eqn:Henc; [done |].
    destruct e'; try (simplify_eq; by eapply encoder_raises).
    destruct (get_feature_names_out _) eqn:Hnames; simplify_eq/=.
    by eapply feature_names_raise.
Qed.

Lemma ensemble_Raise a wine X e :
  features (loaded a) wine = Ok X →
  ensemble (loaded a) X = Raise e → step_failure a wine e.
Proof.
  intros HX. rewrite ensemble_loaded.
  destruct (predict_proba (art_rf a) X) as [Pa |] eqn:Hrf; simpl;
    [| intros [= <-]; by eapply classifier_a_raises].
  destruct (predict_proba (art_xgb a) X) as [Pb |] eqn:Hxgb; simpl;
    [| intros [= <-]; by eapply classifier_b_raises].
  destruct (average Pa Pb) as [avg |] eqn:Havg; simpl;
    [| intros [= <-]; by eapply average_raises].
  destruct (np.argmax avg) as [i |] eqn:Hi; simpl;
    [| intros [= <-]; by eapply argmax_raises].
  destruct (np.getitem (classes_ (art_rf a)) i) as [c |] eqn:Hc; simpl;
    [done | intros [= <-]; by eapply label_lookup_raises].
Qed.

Lemma predict_body_Raise a clock wine e :
  predict_body (loaded a) clock wine = Raise e → step_failure a wine e.
Proof.
  unfold predict_body.
  destruct (features (loaded a) wine) as [X |] eqn:HX; simpl;
    [| intros [= <-]; by apply features_Raise].
  destruct (ensemble (loaded a) X) as [[label conf] |] eqn:Hens; simpl;
    [done | intros [= <-]; by eapply ensemble_Raise].
Qed.

Lemma step_failure_cases a wine e :
  step_failure a wine e →
  features (loaded a) wine = Raise e
  ∨ ∃ X, features (loaded a) wine = Ok X ∧ ensemble (loaded a) X = Raise e.
Proof.
  rewrite features_loaded.
  intros [e' H | e' ? H1 H2 H3 | e' ? ? H1 H2 H3 | e' ? ? H1 H2 H3
         | e' X H1 H2 | e' X Pa H1 H2 H3 | e' X Pa Pb H1 H2 H3 H4
         | e' X Pa Pb avg H1 H2 H3 H4 H5
         | e' X Pa Pb avg i H1 H2 H3 H4 H5 H6];
    [left | left | left | left | right; exists X; rewrite <- features_loaded,
       ensemble_loaded; split; [done |] ..].
  - by rewrite H.
  - rewrite H1. unfold encode_variety. rewrite H2. simpl.
    destruct e'; try done. by destruct (H3 msg).
  - rewrite H1. unfold encode_variety. by rewrite H2, H3.
  - by rewrite H1, H2, H3.
  - by rewrite H2.
  - by rewrite H2, H3.
  - rewrite H2, H3. simpl. by rewrite H4.
  - rewrite H2, H3. simpl. rewrite H4. simpl. by rewrite H5.
  - rewrite H2, H3. simpl. rewrite H4. simpl. rewrite H5. simpl.
    by rewrite H6.
Qed.

Lemma step_failure_body a clock wine e :
  step_failure a wine e → predict_body (loaded a) clock wine = Raise e.
Proof.
  intros [H | (X & HX & Hens)]%step_failure_cases; unfold predict_body.
  - by rewrite H.
  - rewrite HX. simpl. by rewrite Hens.
Qed.

(** C8. On a ready server: when a call of the prediction sequence raises
    [e] (a [ValueError] of the encoder's [transform] apart, which the inner
    handler absorbs), the handler raises the 500 exception whose detail is
    "Prediction error: " followed by the text of [e], and returns no
    response; every exception the handler raises is the one of such a
    failure; and a feature row whose length is not the one classifier A, or
    classifier B after A answered, was fitted on is such a failure. *)
Theorem prediction_failure_generic (a : Artifacts) (clock : Clock)
    (wine : WineInput) :
  (∀ e, step_failure a wine e →
        predict_wine_origin (loaded a) clock wine = prediction_error e)
  ∧ (∀ status detail,
       predict_wine_origin (loaded a) clock wine
       = HTTPException status detail →
       ∃ e, step_failure a wine e
            ∧ HTTPException status detail = prediction_error e)
  ∧ (∀ X n classes proba,
       features (loaded a) wine = Ok X →
       art_rf a = FittedClassifier n classes proba →
       length X ≠ n →
       step_failure a wine (ValueError "Feature shape mismatch"))
  ∧ (∀ X Pa n classes proba,
       features (loaded a) wine = Ok X →
       predict_proba (art_rf a) X = Ok Pa →
       art_xgb a = FittedClassifier n classes proba →
       length X ≠ n →
       step_failure a wine (ValueError "Feature shape mismatch")).
Proof.
  split_and!.
  - intros e Hfail. by rewrite predict_loaded, (step_failure_body _ clock _ _ Hfail).
  - intros status detail. rewrite predict_loaded.
    destruct (predict_body (loaded a) clock wine) as [r | e] eqn:Hbody;
      [done |].
    intros <-. exists e. split; [by eapply predict_body_Raise | done].
  - intros X n classes proba HX Hrf Hlen.
    eapply classifier_a_raises; [done |].
    rewrite Hrf. simpl. by rewrite decide_False.
  - intros X Pa n classes proba HX Hrf Hxgb Hlen.
    eapply classifier_b_raises; [done.. |].
    rewrite Hxgb. simpl. by rewrite decide_False.
Qed.

Lemma prediction_failure_generic_witness :
  predict_wine_origin (loaded example_mismatched_artifacts) example_clock
    get_example
  = HTTPException 500 "Prediction error: Feature shape mismatch".
Proof.
  destruct (prediction_failure_generic example_mismatched_artifacts
              example_clock get_example) as (Hraise & _ & Hshape & _).
  apply (Hraise (ValueError "Feature shape mismatch")).
  apply (Hshape
           ([Q2Qc (1 # 3); 0] ++ [0; 1] ++ [Q2Qc (1 # 4); Q2Qc (4 # 3)])
           7%nat ["France"; "Italy"; "US"]
           (λ _, [Q2Qc (1 # 2); Q2Qc (1 # 4); Q2Qc (1 # 4)])).
  - vm_compute. Qc_rows.
  - reflexivity.
  - discriminate.
Defined.

(** ** Startup: when the server is ready *)

(** X1. [MODELS_LOADED] is true after startup exactly when [os.makedirs]
    and the five loads all succeed, and then the five names are bound to
    the loaded objects. *)
Theorem startup_ready_iff (d : ModelDir) :
  MODELS_LOADED (startup d) = true
  ↔ ∃ rf xgb tf enc sc,
      makedirs d = Ok ()
      ∧ random_forest_tfidf_pkl d = Ok rf
      ∧ xgboost_tfidf_pkl d = Ok xgb
      ∧ tfidf_vectorizer_pkl d = Ok tf
      ∧ onehot_encoder_pkl d = Ok enc
      ∧ scaler_pkl d = Ok sc
      ∧ startup d = loaded {| art_rf := rf; art_xgb := xgb; art_tfidf := tf;
                              art_encoder := enc; art_scaler := sc |}.
Proof.
  split.
  - unfold startup.
    destruct (makedirs d) as [[] |]; [| done].
    destruct (random_forest_tfidf_pkl d) as [rf |]; [| done].
    destruct (xgboost_tfidf_pkl d) as [xgb |]; [| done].
    destruct (tfidf_vectorizer_pkl d) as [tf |]; [| done].
    destruct (onehot_encoder_pkl d) as [enc |]; [| done].
    destruct (scaler_pkl d) as [sc |]; [| done].
    intros _. by exists rf, xgb, tf, enc, sc.
  - intros (rf & xgb & tf & enc & sc & _ & _ & _ & _ & _ & _ & ->). done.
Qed.

(** X2. After startup the names are bound in loading order: a bound name
    has every earlier name bound, and the scaler, loaded last, is bound
    exactly when [MODELS_LOADED] is true. *)
Theorem startup_binds_prefix (d : ModelDir) :
  (is_Some (scaler (startup d)) ↔ MODELS_LOADED (startup d) = true)
  ∧ (is_Some (scaler (startup d)) → is_Some (variety_encoder (startup d)))
  ∧ (is_Some (variety_encoder (startup d)) →
     is_Some (tfidf_vectorizer (startup d)))
  ∧ (is_Some (tfidf_vectorizer (startup d)) → is_Some (xgb_model (startup d)))
  ∧ (is_Some (xgb_model (startup d)) → is_Some (rf_model (startup d))).
Proof.
  unfold startup.
  destruct (makedirs d), (random_forest_tfidf_pkl d), (xgboost_tfidf_pkl d),
    (tfidf_vectorizer_pkl d), (onehot_encoder_pkl d), (scaler_pkl d);
    simpl; split_and!; try split; intros H; try done;
    try (by destruct H); by eexists.
Qed.

(** ** Readiness as the endpoints report it *)

Lemma predict_ready_cases st clock wine :
  MODELS_LOADED st = true →
  (∃ r, predict_wine_origin st clock wine = Response r)
  ∨ (∃ e, predict_wine_origin st clock wine = prediction_error e).
Proof.
  unfold predict_wine_origin. intros ->. simpl.
  destruct (predict_body st clock wine) as [r | e]; eauto.
Qed.

(** X3. On any state the three endpoints agree on readiness: the
    prediction handler raises the 503 exception exactly when [/health]
    reports [models_loaded] false, which is when its status is "unhealthy"
    and the status of [/] is "Models not loaded"; a ready server answers a
    prediction request with a response or with a 500 "Prediction error". *)
Theorem endpoints_agree_on_readiness (st : Server) (clock : Clock)
    (wine : WineInput) :
  (predict_wine_origin st clock wine = service_unavailable
   ↔ (health_check st).2 = false)
  ∧ ((health_check st).2 = false ↔ (health_check st).1 = "unhealthy")
  ∧ ((health_check st).2 = false ↔ root st = "Models not loaded")
  ∧ ((health_check st).2 = true →
     (∃ r, predict_wine_origin st clock wine = Response r)
     ∨ (∃ e, predict_wine_origin st clock wine = prediction_error e)).
Proof.
  unfold health_check, root. simpl. split_and!.
  - split; [| apply predict_unready].
    destruct (MODELS_LOADED st) eqn:Hst; [| done].
    by destruct (predict_ready_cases st clock wine Hst) as [[r ->] | [e ->]].
  - by destruct (MODELS_LOADED st).
  - by destruct (MODELS_LOADED st).
  - apply predict_ready_cases.
Qed.

Lemma endpoints_agree_on_readiness_witness :
  (∃ r, predict_wine_origin (loaded example_artifacts) example_clock
          get_example = Response r)
  ∨ (∃ e, predict_wine_origin (loaded example_artifacts) example_clock
            get_example = prediction_error e).
Proof.
  apply (endpoints_agree_on_readiness (loaded example_artifacts)
           example_clock get_example).
  reflexivity.
Defined.

(** ** Edge cases of the ensemble *)

Lemma predict_ensemble_Raise a clock wine X e :
  features (loaded a) wine = Ok X →
  ensemble (loaded a) X = Raise e →
  predict_wine_origin (loaded a) clock wine = prediction_error e.
Proof.
  intros HX Hens. rewrite predict_loaded. unfold predict_body.
  rewrite HX. simpl. by rewrite Hens.
Qed.

Lemma average_shapes_differ Pa Pb :
  length Pa ≠ length Pb → length Pa ≠ 1%nat → length Pb ≠ 1%nat →
  ∃ msg, average Pa Pb = Raise (ValueError msg).
Proof.
  intros Hne Ha Hb. unfold average, np.add.
  rewrite decide_False by done.
  destruct Pa as [| x [| x' Pa]]; [| done |];
    destruct Pb as [| y [| y' Pb]]; try done; simpl; eauto.
Qed.

(** X4. When the two classifiers answer the feature row with probability
    vectors of different lengths, neither of length one, the handler raises
    the 500 "Prediction error" exception and returns no response. *)
Theorem shape_mismatch_prediction_error (a : Artifacts) (clock : Clock)
    (wine : WineInput) (X Pa Pb : list float) :
  features (loaded a) wine = Ok X →
  predict_proba (art_rf a) X = Ok Pa →
  predict_proba (art_xgb a) X = Ok Pb →
  length Pa ≠ length Pb →
  length Pa ≠ 1%nat →
  length Pb ≠ 1%nat →
  ∃ msg, predict_wine_origin (loaded a) clock wine
         = HTTPException 500 ("Prediction error: " +:+ msg).
Proof.
  intros HX Hrf Hxgb Hne Ha Hb.
  destruct (average_shapes_differ Pa Pb Hne Ha Hb) as [msg Havg].
  exists msg. apply (predict_ensemble_Raise _ _ _ X (ValueError msg)); [done |].
  rewrite ensemble_loaded, Hrf, Hxgb. simpl. by rewrite Havg.
Qed.

Lemma shape_mismatch_prediction_error_witness :
  ∃ msg, predict_wine_origin (loaded example_two_class_xgb) example_clock
           get_example
         = HTTPException 500 ("Prediction error: " +:+ msg).
Proof.
  apply (shape_mismatch_prediction_error example_two_class_xgb example_clock
           get_example
           ([Q2Qc (1 # 3); 0] ++ [0; 1] ++ [Q2Qc (1 # 4); Q2Qc (4 # 3)])
           [Q2Qc (1 # 2); Q2Qc (1 # 4); Q2Qc (1 # 4)]
           [Q2Qc (1 # 2); Q2Qc (1 # 2)]).
  - vm_compute. Qc_rows.
  - reflexivity.
  - reflexivity.
  - discriminate.
  - discriminate.
  - discriminate.
Defined.

Lemma average_empty Pa Pb :
  Pa = [] ∨ Pb = [] →
  average Pa Pb = Ok [] ∨ ∃ msg, average Pa Pb = Raise (ValueError msg).
Proof.
  unfold average, np.add.
  intros [-> | ->].
  - destruct Pb as [| y [| y' Pb]]; simpl; eauto.
  - destruct Pa as [| x [| x' Pa]]; simpl; eauto.
Qed.

(** X5. When either classifier answers the feature row with an empty
    probability vector, the handler raises the 500 "Prediction error"
    exception. *)
Theorem empty_probabilities_prediction_error (a : Artifacts) (clock : Clock)
    (wine : WineInput) (X Pa Pb : list float) :
  features (loaded a) wine = Ok X →
  predict_proba (art_rf a) X = Ok Pa →
  predict_proba (art_xgb a) X = Ok Pb →
  Pa = [] ∨ Pb = [] →
  ∃ msg, predict_wine_origin (loaded a) clock wine
         = HTTPException 500 ("Prediction error: " +:+ msg).
Proof.
  intros HX Hrf Hxgb Hempty.
  destruct (average_empty Pa Pb Hempty) as [Havg | [msg Havg]].
  - eexists. apply (predict_ensemble_Raise _ _ _ X); [done |].
    rewrite ensemble_loaded, Hrf, Hxgb. simpl. by rewrite Havg.
  - exists msg. apply (predict_ensemble_Raise _ _ _ X (ValueError msg));
      [done |].
    rewrite ensemble_loaded, Hrf, Hxgb. simpl. by rewrite Havg.
Qed.

Lemma empty_probabilities_prediction_error_witness :
  ∃ msg, predict_wine_origin (loaded example_no_class) example_clock
           get_example
         = HTTPException 500 ("Prediction error: " +:+ msg).
Proof.
  apply (empty_probabilities_prediction_error example_no_class example_clock
           get_example
           ([Q2Qc (1 # 3); 0] ++ [0; 1] ++ [Q2Qc (1 # 4); Q2Qc (4 # 3)])
           [] []).
  - vm_compute. Qc_rows.
  - reflexivity.
  - reflexivity.
  - by left.
Defined.

(** X6. When the first largest entry of the averaged probabilities sits at
    a position beyond classifier A's class list, the handler raises the
    500 "Prediction error" exception instead of returning the confidence
    scores it has built. *)
Theorem label_out_of_range_prediction_error (a : Artifacts) (clock : Clock)
    (wine : WineInput) (X Pa Pb : list float) (i : nat) :
  features (loaded a) wine = Ok X →
  predict_proba (art_rf a) X = Ok Pa →
  predict_proba (art_xgb a) X = Ok Pb →
  length Pa = length Pb →
  first_max (zip_with (λ p q, (p + q) / Q2Qc 2) Pa Pb) i →
  (length (classes_ (art_rf a)) ≤ i)%nat →
  ∃ msg, predict_wine_origin (loaded a) clock wine
         = HTTPException 500 ("Prediction error: " +:+ msg).
Proof.
  intros HX Hrf Hxgb Hlen Hfm Hi.
  eexists. apply (predict_ensemble_Raise _ _ _ X); [done |].
  rewrite (ensemble_equal_shapes a X Pa Pb Hrf Hxgb Hlen).
  rewrite (first_max_argmax _ _ Hfm). simpl. unfold np.getitem.
  by rewrite lookup_ge_None_2.
Qed.

Lemma label_out_of_range_prediction_error_witness :
  ∃ msg, predict_wine_origin (loaded example_short_classes) example_clock
           get_example
         = HTTPException 500 ("Prediction error: " +:+ msg).
Proof.
  apply (label_out_of_range_prediction_error example_short_classes
           example_clock get_example
           ([Q2Qc (1 # 3); 0] ++ [0; 1] ++ [Q2Qc (1 # 4); Q2Qc (4 # 3)])
           [Q2Qc (1 # 4); Q2Qc (1 # 4); Q2Qc (1 # 2)]
           [Q2Qc (1 # 4); Q2Qc (1 # 4); Q2Qc (1 # 2)] 2).
  - vm_compute. Qc_rows.
  - reflexivity.
  - reflexivity.
  - reflexivity.
  - apply argmax_first_max. reflexivity.
  - simpl. lia.
Defined.

(** ** The confidence scores *)

Lemma fst_zip_take {A B} (l : list A) (k : list B) :
  (zip l k).*1 = take (length k) l.
Proof.
  revert k. induction l as [| x l IH]; intros [| y k]; simpl; [done.. |].
  by rewrite IH.
Qed.

(** X7. In a response the keys of the confidence scores are the first [n]
    classes of classifier A, [n] being the number of probabilities the
    classifiers returned; with a duplicate-free class list there are
    [min n (len classes)] keys, so one key per class when [n] is the number
    of classes. *)
Theorem confidence_scores_keys (a : Artifacts) (clock : Clock)
    (wine : WineInput) (X Pa Pb : list float) (r : PredictionResponse) :
  features (loaded a) wine = Ok X →
  predict_proba (art_rf a) X = Ok Pa →
  predict_proba (art_xgb a) X = Ok Pb →
  length Pa = length Pb →
  predict_wine_origin (loaded a) clock wine = Response r →
  dom (confidence_scores r)
  = list_to_set (take (length Pa) (classes_ (art_rf a)))
  ∧ (NoDup (classes_ (art_rf a)) →
     size (confidence_scores r)
     = length Pa `min` length (classes_ (art_rf a))).
Proof.
  intros HX Hrf Hxgb Hlen Hr.
  apply predict_Response_inv in Hr as (X' & HX' & Hens).
  assert (X' = X) as -> by congruence.
  rewrite (ensemble_equal_shapes a X Pa Pb Hrf Hxgb Hlen) in Hens.
  destruct (np.argmax _) as [i |]; [| done]. simpl in Hens.
  destruct (np.getitem _ _) as [c |]; [| done]. simpl in Hens.
  injection Hens as _ <-.
  assert (dom (dict_of_pairs (zip (classes_ (art_rf a))
                 (zip_with (λ p q, (p + q) / Q2Qc 2) Pa Pb)))
          = list_to_set (take (length Pa) (classes_ (art_rf a)))) as Hdom.
  { rewrite dom_dict_of_pairs, fst_zip_take, length_zip_with.
    by rewrite <- Hlen, Nat.min_id. }
  split; [done |].
  intros Hnd. rewrite <- size_dom, Hdom.
  rewrite size_list_to_set
    by (eapply sublist_NoDup; [done | apply sublist_take]).
  by rewrite length_take.
Qed.

Lemma confidence_scores_keys_witness :
  ∃ r, predict_wine_origin (loaded example_artifacts) example_clock
         get_example = Response r
       ∧ dom (confidence_scores r)
         = list_to_set (take 3 ["France"; "Italy"; "US"])
       ∧ (NoDup ["France"; "Italy"; "US"] →
          size (confidence_scores r) = 3 `min` 3).
Proof.
  eexists. split; [reflexivity |].
  apply (confidence_scores_keys example_artifacts example_clock get_example
           ([Q2Qc (1 # 3); 0] ++ [0; 1] ++ [Q2Qc (1 # 4); Q2Qc (4 # 3)])
           [Q2Qc (1 # 2); Q2Qc (1 # 4); Q2Qc (1 # 4)]
           [Q2Qc (1 # 4); Q2Qc (1 # 2); Q2Qc (1 # 4)]).
  - vm_compute. Qc_rows.
  - reflexivity.
  - reflexivity.
  - reflexivity.
  - reflexivity.
Defined.

Lemma half_le_compat (x y x' y' : float) :
  x ≤ x' → y ≤ y' → (x + y) / Q2Qc 2 ≤ (x' + y') / Q2Qc 2.
Proof.
  intros Hx Hy. unfold Qcdiv.
  apply Qcmult_le_compat_r; [by apply Qcplus_le_compat | done].
Qed.

Lemma half_lt_compat (x y x' y' : float) :
  x < x' → y < y' → (x + y) / Q2Qc 2 < (x' + y') / Q2Qc 2.
Proof.
  intros Hx Hy. unfold Qcdiv.
  apply Qcmult_lt_compat_r; [done |].
  apply Qclt_trans with (x' + y).
  - by apply Qcplus_lt_mono_r.
  - by apply Qcplus_lt_mono_l.
Qed.

Lemma half_twice (x : float) : (x + x) / Q2Qc 2 = x.
Proof.
  assert (Q2Qc 2 = 1 + 1) as -> by (apply Qc_is_canon; reflexivity).
  field. discriminate.
Qed.

Lemma add_entries (a b total : list float) (v : float) :
  np.add a b = Ok total → v ∈ total →
  ∃ p q, p ∈ a ∧ q ∈ b ∧ v = p + q.
Proof.
  unfold np.add.
  destruct (decide (length a = length b)) as [Hlen | Hlen].
  - intros [= <-] Hv.
    apply list_elem_of_lookup in Hv as [j Hj].
    apply lookup_zip_with_Some in Hj as (p & q & -> & Hp & Hq).
    exists p, q. split_and!; [by eapply list_elem_of_lookup_2.. | done].
  - destruct a as [| x [| x' a]]; cbv beta iota.
    + destruct b as [| y [| y' b]]; cbv beta iota; [done | | done].
      intros [= <-] Hv. by apply elem_of_nil in Hv.
    + intros H Hv. apply (inj Ok) in H. subst total.
      apply list_elem_of_fmap in Hv as (q & -> & Hq).
      exists x, q. split_and!; [apply list_elem_of_here | done..].
    + destruct b as [| y [| y' b]]; cbv beta iota; [done | | done].
      intros H Hv. apply (inj Ok) in H. subst total.
      apply list_elem_of_fmap in Hv as (p & -> & Hp).
      exists p, y. split_and!; [done | apply list_elem_of_here | done].
Qed.

Lemma average_entries Pa Pb avg v :
  average Pa Pb = Ok avg → v ∈ avg →
  ∃ p q, p ∈ Pa ∧ q ∈ Pb ∧ v = (p + q) / Q2Qc 2.
Proof.
  unfold average, np.div_scalar.
  destruct (np.add Pa Pb) as [total |] eqn:Hadd; [| done]. simpl.
  intros [= <-] Hv. apply list_elem_of_fmap in Hv as (s & -> & Hs).
  destruct (add_entries _ _ _ _ Hadd Hs) as (p & q & Hp & Hq & ->).
  by exists p, q.
Qed.

Lemma dict_of_pairs_lookup_elem {V} (l : list (string * V)) k v :
  dict_of_pairs l !! k = Some v → (k, v) ∈ l.
Proof.
  rewrite dict_of_pairs_list_to_map. intros H.
  apply elem_of_list_to_map_2 in H. by apply elem_of_reverse.
Qed.

(** X8. Averaging keeps bounds: when every probability the two classifiers
    return lies between [lo] and [hi], so does every confidence score of
    the response, whatever the shapes and the class list. *)
Theorem confidence_scores_bounded (a : Artifacts) (clock : Clock)
    (wine : WineInput) (X Pa Pb : list float) (lo hi : float)
    (r : PredictionResponse) :
  features (loaded a) wine = Ok X →
  predict_proba (art_rf a) X = Ok Pa →
  predict_proba (art_xgb a) X = Ok Pb →
  Forall (λ p, lo ≤ p ∧ p ≤ hi) Pa →
  Forall (λ p, lo ≤ p ∧ p ≤ hi) Pb →
  predict_wine_origin (loaded a) clock wine = Response r →
  ∀ k v, confidence_scores r !! k = Some v → lo ≤ v ∧ v ≤ hi.
Proof.
  intros HX Hrf Hxgb Ha Hb Hr k v Hk.
  apply predict_Response_inv in Hr as (X' & HX' & Hens).
  assert (X' = X) as -> by congruence.
  apply ensemble_Ok_inv in Hens
    as (Pa' & Pb' & avg & i & Hrf' & Hxgb' & Havg & _ & _ & Hconf).
  assert (Pa' = Pa) as -> by congruence.
  assert (Pb' = Pb) as -> by congruence.
  rewrite Hconf in Hk. apply dict_of_pairs_lookup_elem in Hk.
  apply list_elem_of_lookup in Hk as [j Hj].
  apply lookup_zip_with_Some in Hj as (k' & v' & [= <- <-] & _ & Hv).
  apply list_elem_of_lookup_2 in Hv.
  destruct (average_entries _ _ _ _ Havg Hv) as (p & q & Hp & Hq & ->).
  rewrite list.Forall_forall in Ha, Hb.
  destruct (Ha p Hp) as [Hp1 Hp2]. destruct (Hb q Hq) as [Hq1 Hq2].
  split.
  - rewrite <- (half_twice lo). by apply half_le_compat.
  - rewrite <- (half_twice hi). by apply half_le_compat.
Qed.

Lemma confidence_scores_bounded_witness :
  ∃ r, predict_wine_origin (loaded example_artifacts) example_clock
         get_example = Response r
       ∧ ∀ k v, confidence_scores r !! k = Some v → 0 ≤ v ∧ v ≤ 1.
Proof.
  eexists. split; [reflexivity |].
  apply (confidence_scores_bounded example_artifacts example_clock
           get_example
           ([Q2Qc (1 # 3); 0] ++ [0; 1] ++ [Q2Qc (1 # 4); Q2Qc (4 # 3)])
           [Q2Qc (1 # 2); Q2Qc (1 # 4); Q2Qc (1 # 4)]
           [Q2Qc (1 # 4); Q2Qc (1 # 2); Q2Qc (1 # 4)]).
  - vm_compute. Qc_rows.
  - reflexivity.
  - reflexivity.
  - repeat constructor; by apply (bool_decide_unpack _).
  - repeat constructor; by apply (bool_decide_unpack _).
  - reflexivity.
Defined.

Lemma sum_le_replicate (l : list float) (m : float) :
  (∀ x, x ∈ l → x ≤ m) → np.sum l ≤ np.sum (replicate (length l) m).
Proof.
  induction l as [| x l IH]; intros Hle; simpl.
  - apply Qcle_refl.
  - apply Qcplus_le_compat.
    + apply Hle, list_elem_of_here.
    + apply IH. intros y Hy. by apply Hle, list_elem_of_further.
Qed.

(** X9. When the two classifiers answer with one probability per class of
    a duplicate-free class list, each vector summing to 1, the confidence
    score [m] of the predicted country is at least the mean score: adding
    [m] up once per class gives at least 1. *)
Theorem predicted_score_at_least_mean (a : Artifacts) (clock : Clock)
    (wine : WineInput) (X Pa Pb : list float) :
  features (loaded a) wine = Ok X →
  predict_proba (art_rf a) X = Ok Pa →
  predict_proba (art_xgb a) X = Ok Pb →
  length Pa = length (classes_ (art_rf a)) →
  length Pb = length (classes_ (art_rf a)) →
  NoDup (classes_ (art_rf a)) →
  np.sum Pa = 1 →
  np.sum Pb = 1 →
  ∃ r m,
    predict_wine_origin (loaded a) clock wine = Response r
    ∧ confidence_scores r !! predicted_country r = Some m
    ∧ 1 ≤ np.sum (replicate (length (classes_ (art_rf a))) m).
Proof.
  intros HX Hrf Hxgb Ha Hb Hnd Hsa Hsb.
  pose proof (sum_nil_classes _ _ Ha Hsa) as Hne.
  destruct (ensemble_Ok a X Pa Pb Hrf Hxgb Ha Hb Hne)
    as (i & label & (m & Hm & Hle & _) & Hlabel & Hens).
  set (avg := zip_with (λ p q, (p + q) / Q2Qc 2) Pa Pb) in *.
  set (classes := classes_ (art_rf a)) in *.
  assert (length avg = length classes) as Havg
    by (unfold avg; rewrite length_zip_with; lia).
  assert (np.sum avg = 1) as Hsum.
  { unfold avg. rewrite sum_average by congruence. rewrite Hsa, Hsb.
    apply Qc_is_canon. reflexivity. }
  eexists _, m. split; [by eapply predict_Response |]. simpl. split.
  - apply lookup_dict_of_pairs; [by rewrite fst_zip by lia |].
    apply list_elem_of_lookup. exists i.
    apply lookup_zip_with_Some. eauto.
  - rewrite <- Hsum, <- Havg. apply sum_le_replicate.
    intros x [j Hj]%list_elem_of_lookup. eauto.
Qed.

Lemma predicted_score_at_least_mean_witness :
  ∃ r m,
    predict_wine_origin (loaded example_artifacts) example_clock get_example
    = Response r
    ∧ confidence_scores r !! predicted_country r = Some m
    ∧ 1 ≤ np.sum (replicate 3 m).
Proof.
  apply (predicted_score_at_least_mean example_artifacts example_clock
           get_example
           ([Q2Qc (1 # 3); 0] ++ [0; 1] ++ [Q2Qc (1 # 4); Q2Qc (4 # 3)])
           [Q2Qc (1 # 2); Q2Qc (1 # 4); Q2Qc (1 # 4)]
           [Q2Qc (1 # 4); Q2Qc (1 # 2); Q2Qc (1 # 4)]).
  - vm_compute. Qc_rows.
  - reflexivity.
  - reflexivity.
  - reflexivity.
  - reflexivity.
  - apply (bool_decide_unpack _). vm_compute. reflexivity.
  - apply Qc_is_canon. reflexivity.
  - apply Qc_is_canon. reflexivity.
Defined.

(** ** How the ensemble combines the two classifiers *)

Lemma add_comm (a b : list float) : np.add a b = np.add b a.
Proof.
  unfold np.add.
  destruct (decide (length a = length b)) as [Hlen | Hlen].
  - rewrite decide_True by done. f_equal.
    clear Hlen. revert b.
    induction a as [| x a IH]; intros [| y b]; simpl; [done.. |].
    by rewrite IH, Qcplus_comm.
  - rewrite decide_False by done.
    destruct a as [| x [| x' a]]; destruct b as [| y [| y' b]];
      cbv beta iota; try done; f_equal.
    + apply list_fmap_ext. intros ? ? _. apply Qcplus_comm.
    + apply list_fmap_ext. intros ? ? _. apply Qcplus_comm.
Qed.

Lemma average_comm Pa Pb : average Pa Pb = average Pb Pa.
Proof. unfold average. by rewrite add_comm. Qed.

(** X10. The ensemble treats the two classifiers' probabilities alike: when
    both classifiers answer the feature row, exchanging their
    [predict_proba] while the class lists stay in place leaves the
    handler's outcome unchanged. *)
Theorem ensemble_symmetric (a : Artifacts) (clock : Clock)
    (wine : WineInput) (X Pa Pb : list float) :
  features (loaded a) wine = Ok X →
  predict_proba (art_rf a) X = Ok Pa →
  predict_proba (art_xgb a) X = Ok Pb →
  predict_wine_origin (loaded (swap_predict_proba a)) clock wine
  = predict_wine_origin (loaded a) clock wine.
Proof.
  intros HX Hrf Hxgb.
  assert (features (loaded (swap_predict_proba a)) wine = Ok X) as HX'
    by done.
  rewrite !predict_loaded. unfold predict_body. rewrite HX, HX'. simpl.
  rewrite !ensemble_loaded. simpl. rewrite Hrf, Hxgb. simpl.
  by rewrite average_comm.
Qed.

Lemma ensemble_symmetric_witness :
  predict_wine_origin (loaded (swap_predict_proba example_artifacts))
    example_clock get_example
  = predict_wine_origin (loaded example_artifacts) example_clock get_example.
Proof.
  apply (ensemble_symmetric example_artifacts example_clock get_example
           ([Q2Qc (1 # 3); 0] ++ [0; 1] ++ [Q2Qc (1 # 4); Q2Qc (4 # 3)])
           [Q2Qc (1 # 2); Q2Qc (1 # 4); Q2Qc (1 # 4)]
           [Q2Qc (1 # 4); Q2Qc (1 # 2); Q2Qc (1 # 4)]).
  - vm_compute. Qc_rows.
  - reflexivity.
  - reflexivity.
Defined.

Lemma zip_with_diag {A B} (f : A → A → B) (l : list A) :
  zip_with f l l = (λ x, f x x) <$> l.
Proof. induction l as [| x l IH]; simpl; [done |]. by rewrite IH. Qed.

(** X11. When the two classifiers answer the feature row with the same
    probability vector [P], the ensemble decides as that vector alone
    would: the label is classifier A's class at the first largest entry of
    [P], and the confidence scores are the classes zipped with [P]. *)
Theorem ensemble_of_agreeing_classifiers (a : Artifacts) (X P : list float) :
  predict_proba (art_rf a) X = Ok P →
  predict_proba (art_xgb a) X = Ok P →
  ensemble (loaded a) X =
    (predicted_idx ← np.argmax P;
     country ← np.getitem (classes_ (art_rf a)) predicted_idx;
     Ok (country, dict_of_pairs (zip (classes_ (art_rf a)) P))).
Proof.
  intros Hrf Hxgb.
  rewrite (ensemble_equal_shapes a X P P Hrf Hxgb eq_refl).
  rewrite zip_with_diag.
  replace ((λ x, (x + x) / Q2Qc 2) <$> P) with P; [done |].
  rewrite <- (list_fmap_id P) at 1.
  apply list_fmap_ext. intros ? x _. simpl. by rewrite half_twice.
Qed.

Lemma ensemble_of_agreeing_classifiers_witness :
  ensemble (loaded example_agreeing)
    [Q2Qc (1 # 3); 0; 0; 1; Q2Qc (1 # 4); Q2Qc (4 # 3)]
  = Ok ("France",
        dict_of_pairs (zip ["France"; "Italy"; "US"]
                         [Q2Qc (1 # 2); Q2Qc (1 # 4); Q2Qc (1 # 4)])).
Proof.
  rewrite (ensemble_of_agreeing_classifiers example_agreeing
             [Q2Qc (1 # 3); 0; 0; 1; Q2Qc (1 # 4); Q2Qc (4 # 3)]
             [Q2Qc (1 # 2); Q2Qc (1 # 4); Q2Qc (1 # 4)]).
  - reflexivity.
  - reflexivity.
  - reflexivity.
Defined.

(** X12. When the two classifiers answer with probability vectors of one
    length that both have a largest entry at position [i], the average has
    a largest entry at [i], and the ensemble predicts the class at [i] or
    at an earlier position whose average equals the one at [i]. *)
Theorem ensemble_common_maximum (a : Artifacts) (X Pa Pb : list float)
    (i : nat) (ma mb : float) (label : string) (conf : gmap string float) :
  predict_proba (art_rf a) X = Ok Pa →
  predict_proba (art_xgb a) X = Ok Pb →
  length Pa = length Pb →
  Pa !! i = Some ma →
  (∀ j x, Pa !! j = Some x → x ≤ ma) →
  Pb !! i = Some mb →
  (∀ j x, Pb !! j = Some x → x ≤ mb) →
  ensemble (loaded a) X = Ok (label, conf) →
  let avg := zip_with (λ p q, (p + q) / Q2Qc 2) Pa Pb in
  avg !! i = Some ((ma + mb) / Q2Qc 2)
  ∧ (∀ j x, avg !! j = Some x → x ≤ (ma + mb) / Q2Qc 2)
  ∧ ∃ k, (k ≤ i)%nat
         ∧ avg !! k = Some ((ma + mb) / Q2Qc 2)
         ∧ classes_ (art_rf a) !! k = Some label.
Proof.
  intros Hrf Hxgb Hlen Hma Hlea Hmb Hleb Hens avg.
  assert (avg !! i = Some ((ma + mb) / Q2Qc 2)) as Hi
    by (apply lookup_zip_with_Some; eauto).
  assert (∀ j x, avg !! j = Some x → x ≤ (ma + mb) / Q2Qc 2) as Hmax.
  { intros j x Hj.
    apply lookup_zip_with_Some in Hj as (p & q & -> & Hp & Hq).
    apply half_le_compat; eauto. }
  split_and!; [done.. |].
  rewrite (ensemble_equal_shapes a X Pa Pb Hrf Hxgb Hlen) in Hens.
  fold avg in Hens.
  destruct (np.argmax avg) as [k |] eqn:Hk; [| done]. simpl in Hens.
  unfold np.getitem in Hens.
  destruct (classes_ (art_rf a) !! k) as [c |] eqn:Hc; [| done].
  simpl in Hens. injection Hens as -> _.
  apply argmax_first_max in Hk as (m & Hm & Hle & Hlt).
  assert (m = (ma + mb) / Q2Qc 2) as ->
    by (apply Qcle_antisym; [by eapply Hmax | by eapply Hle]).
  exists k. split_and!; [| done..].
  destruct (decide (k ≤ i)%nat) as [| Hki]; [done |].
  exfalso. apply (Qclt_not_le _ _ (Hlt i _ Hi ltac:(lia))), Qcle_refl.
Qed.

Lemma ensemble_common_maximum_witness :
  let avg := zip_with (λ p q, (p + q) / Q2Qc 2)
               [Q2Qc (1 # 2); Q2Qc (1 # 4); Q2Qc (1 # 4)]
               [Q2Qc (2 # 5); Q2Qc (3 # 10); Q2Qc (3 # 10)] in
  avg !! 0%nat = Some ((Q2Qc (1 # 2) + Q2Qc (2 # 5)) / Q2Qc 2)
  ∧ (∀ j x, avg !! j = Some x → x ≤ (Q2Qc (1 # 2) + Q2Qc (2 # 5)) / Q2Qc 2)
  ∧ ∃ k, (k ≤ 0)%nat
         ∧ avg !! k = Some ((Q2Qc (1 # 2) + Q2Qc (2 # 5)) / Q2Qc 2)
         ∧ ["France"; "Italy"; "US"] !! k = Some "France".
Proof.
  apply (ensemble_common_maximum example_unanimous
           [Q2Qc (1 # 3); 0; 0; 1; Q2Qc (1 # 4); Q2Qc (4 # 3)]
           [Q2Qc (1 # 2); Q2Qc (1 # 4); Q2Qc (1 # 4)]
           [Q2Qc (2 # 5); Q2Qc (3 # 10); Q2Qc (3 # 10)] 0
           (Q2Qc (1 # 2)) (Q2Qc (2 # 5)) "France"
           (dict_of_pairs
              (zip ["France"; "Italy"; "US"]
                 (zip_with (λ p q, (p + q) / Q2Qc 2)
                    [Q2Qc (1 # 2); Q2Qc (1 # 4); Q2Qc (1 # 4)]
                    [Q2Qc (2 # 5); Q2Qc (3 # 10); Q2Qc (3 # 10)])))).
  - reflexivity.
  - reflexivity.
  - reflexivity.
  - reflexivity.
  - intros [| [| [| j]]] x [= <-]; by apply (bool_decide_unpack _).
  - reflexivity.
  - intros [| [| [| j]]] x [= <-]; by apply (bool_decide_unpack _).
  - reflexivity.
Defined.

(** ** Facts about request validation *)

Lemma lstrip_head s c r : lstrip s = String c r → isspace c = false.
Proof.
  induction s as [| c' s IH]; simpl; [done |].
  destruct (isspace c') eqn:Hc; [done |]. by intros [= <- _].
Qed.

Lemma rstrip_head s c r : rstrip s = String c r → ∃ t, s = String c t.
Proof.
  destruct s as [| c' s]; simpl; [done |].
  destruct (rstrip s); [destruct (isspace c') |]; intros [= <- _]; eauto.
Qed.

Lemma rstrip_last s r c :
  rstrip s = (r +:+ String c "")%string → isspace c = false.
Proof.
  revert r. induction s as [| c' s IH]; intros r; simpl.
  - by destruct r.
  - destruct (rstrip s) as [| b t] eqn:Hs.
    + destruct (isspace c') eqn:Hc'; [by destruct r |].
      destruct r as [| ? [| ? ?]]; simpl; intros [= ]; by subst.
    + destruct r as [| x r]; simpl; [done |].
      intros [= <- Hr]. by eapply IH.
Qed.

Lemma lstrip_length s : (String.length (lstrip s) ≤ String.length s)%nat.
Proof.
  induction s as [| c s IH]; simpl; [done |].
  destruct (isspace c); simpl; lia.
Qed.

Lemma rstrip_length s : (String.length (rstrip s) ≤ String.length s)%nat.
Proof.
  induction s as [| c s IH]; simpl; [done |].
  destruct (rstrip s); [destruct (isspace c) |]; simpl in *; lia.
Qed.

Lemma strip_length s : (String.length (strip s) ≤ String.length s)%nat.
Proof.
  unfold strip. etrans; [apply rstrip_length | apply lstrip_length].
Qed.

Lemma strip_head s c r : strip s = String c r → isspace c = false.
Proof.
  unfold strip. intros [t Ht]%rstrip_head. by eapply lstrip_head.
Qed.

Lemma rstrip_idemp s : rstrip (rstrip s) = rstrip s.
Proof.
  induction s as [| c s IH]; simpl; [done |].
  destruct (rstrip s) as [| b t] eqn:Hs.
  - destruct (isspace c) eqn:Hc; simpl; [done |]. by rewrite Hc.
  - change (match rstrip (String b t) with
            | EmptyString =>
                if isspace c then EmptyString else String c EmptyString
            | String _ _ as r => String c r
            end = String c (String b t)).
    by rewrite IH.
Qed.

Lemma lstrip_fixed s c r : s = String c r → isspace c = false → lstrip s = s.
Proof. intros -> Hc. simpl. by rewrite Hc. Qed.

Lemma strip_idemp s : strip (strip s) = strip s.
Proof.
  unfold strip.
  destruct (rstrip (lstrip s)) as [| c r] eqn:Hs; [done |].
  rewrite (lstrip_fixed _ c r eq_refl) by by eapply strip_head.
  by rewrite <- Hs, rstrip_idemp.
Qed.

Lemma constr_length_inr lo hi v v' :
  constr_length lo hi v = inr v' →
  v' = v ∧ (lo ≤ String.length v)%nat
  ∧ ∀ n, hi = Some n → (String.length v ≤ n)%nat.
Proof.
  unfold constr_length.
  destruct (decide (String.length v < lo)%nat); [done |].
  destruct hi as [k |].
  - destruct (decide (k < String.length v)%nat); [done |].
    intros [= <-]. split_and!; [done | lia |]. intros ? [= <-]. lia.
  - intros [= <-]. split_and!; [done | lia | done].
Qed.

Lemma number_size_inr lo hi v v' :
  number_size lo hi v = inr v' → v' = v ∧ lo ≤ v ∧ v ≤ hi.
Proof.
  unfold number_size.
  destruct (decide (lo ≤ v)); [| done].
  destruct (decide (v ≤ hi)); [| done]. by intros [= <-].
Qed.

Lemma description_field_inr v d :
  description_field v = inr d →
  d = strip v ∧ d ≠ ""
  ∧ (10 ≤ String.length v)%nat ∧ (String.length v ≤ 1000)%nat.
Proof.
  unfold description_field.
  destruct (constr_length 10 (Some 1000%nat) v) as [| v'] eqn:Hlen; [done |].
  apply constr_length_inr in Hlen as (-> & Hlo & Hhi).
  unfold validate_description.
  destruct (decide (strip v = "")) as [| Hne]; [done |].
  intros [= <-]. split_and!; [done.. | by apply Hhi].
Qed.

Lemma WineInput_validate_inr body w :
  WineInput_validate body = inr w →
  description_field (description body) = inr (description w)
  ∧ points_field (points body) = inr (points w)
  ∧ price_field (price body) = inr (price w)
  ∧ variety_field (variety body) = inr (variety w).
Proof.
  unfold WineInput_validate.
  destruct (description_field _), (points_field _), (price_field _),
    (variety_field _); try done.
  by intros [= <-].
Qed.

(** X13. A request body that passes validation reaches the handler with
    its description trimmed: the validated description is the stripped one,
    is not empty, has at most 1000 characters and neither starts nor ends
    with a whitespace character; points lie in [0, 100], price in
    [0, 10000], both unchanged, and variety is unchanged and not empty. *)
Theorem validated_input_invariants (body w : WineInput) :
  WineInput_validate body = inr w →
  description w = strip (description body)
  ∧ description w ≠ ""
  ∧ (String.length (description w) ≤ 1000)%nat
  ∧ (∀ c r, description w = String c r → isspace c = false)
  ∧ (∀ r c, description w = (r +:+ String c "")%string → isspace c = false)
  ∧ points w = points body ∧ 0 ≤ points w ∧ points w ≤ Q2Qc 100
  ∧ price w = price body ∧ 0 ≤ price w ∧ price w ≤ Q2Qc 10000
  ∧ variety w = variety body ∧ variety w ≠ "".
Proof.
  intros (Hd & Hpts & Hpr & Hv)%WineInput_validate_inr.
  apply description_field_inr in Hd as (Hd & Hne & _ & Hhi).
  apply number_size_inr in Hpts as (Hpts & ? & ?).
  apply number_size_inr in Hpr as (Hpr & ? & ?).
  apply constr_length_inr in Hv as (Hv & Hvlen & _).
  split_and!; try done.
  - rewrite Hd. etrans; [apply strip_length | done].
  - rewrite Hd. apply strip_head.
  - rewrite Hd. unfold strip. apply rstrip_last.
  - congruence.
  - congruence.
  - congruence.
  - congruence.
  - rewrite Hv. intros E. rewrite E in Hvlen. simpl in Hvlen. lia.
Qed.

Lemma validated_input_invariants_witness :
  let w := {| description := "Bright cherry and spice";
              points := Q2Qc 88; price := Q2Qc 20;
              variety := "Pinot Noir" |} in
  description w = strip (description example_padded_body)
  ∧ description w ≠ ""
  ∧ (String.length (description w) ≤ 1000)%nat
  ∧ (∀ c r, description w = String c r → isspace c = false)
  ∧ (∀ r c, description w = (r +:+ String c "")%string → isspace c = false)
  ∧ points w = points example_padded_body
  ∧ 0 ≤ points w ∧ points w ≤ Q2Qc 100
  ∧ price w = price example_padded_body
  ∧ 0 ≤ price w ∧ price w ≤ Q2Qc 10000
  ∧ variety w = variety example_padded_body ∧ variety w ≠ "".
Proof.
  intros w.
  apply (validated_input_invariants example_padded_body w).
  reflexivity.
Defined.

Lemma number_size_stable lo hi v v' :
  number_size lo hi v = inr v' → number_size lo hi v' = inr v'.
Proof. intros H. by apply number_size_inr in H as H'; destruct H' as [-> _]. Qed.

Lemma constr_length_stable lo hi v v' :
  constr_length lo hi v = inr v' → constr_length lo hi v' = inr v'.
Proof.
  intros H. by apply constr_length_inr in H as H'; destruct H' as [-> _].
Qed.

Lemma description_field_stable v d :
  description_field v = inr d →
  (10 ≤ String.length d)%nat →
  description_field d = inr d.
Proof.
  intros (Hd & Hne & _ & Hhi)%description_field_inr Hlen.
  assert (String.length d ≤ 1000)%nat as Hhi'
    by (rewrite Hd; etrans; [apply strip_length | done]).
  unfold description_field, constr_length, validate_description.
  rewrite decide_False by lia. rewrite decide_False by lia.
  assert (strip d = d) as -> by (rewrite Hd; apply strip_idemp).
  by rewrite decide_False.
Qed.

(** X14. Validation is stable on what it accepts, as long as the trimmed
    description still has ten characters: validating the validated input
    again returns it unchanged. *)
Theorem validate_validated (body w : WineInput) :
  WineInput_validate body = inr w →
  (10 ≤ String.length (description w))%nat →
  WineInput_validate w = inr w.
Proof.
  intros (Hd & Hpts & Hpr & Hv)%WineInput_validate_inr Hlen.
  unfold WineInput_validate.
  rewrite (description_field_stable _ _ Hd Hlen).
  unfold points_field, price_field, variety_field in *.
  rewrite (number_size_stable _ _ _ _ Hpts), (number_size_stable _ _ _ _ Hpr).
  rewrite (constr_length_stable _ _ _ _ Hv).
  by destruct w.
Qed.

Lemma validate_validated_witness :
  WineInput_validate
    {| description := "Bright cherry and spice";
       points := Q2Qc 88; price := Q2Qc 20; variety := "Pinot Noir" |}
  = inr {| description := "Bright cherry and spice";
           points := Q2Qc 88; price := Q2Qc 20; variety := "Pinot Noir" |}.
Proof.
  apply (validate_validated example_padded_body).
  - reflexivity.
  - simpl. lia.
Defined.

(** X15. The ten-character minimum is checked before trimming, so the
    validated description may be shorter than ten characters: every input
    with a non-empty description of at most 990 characters that has no
    surrounding whitespace, points in [0, 100], price in [0, 10000] and a
    non-empty variety is what validation returns for the body carrying the
    same description after ten blanks. *)
Theorem short_description_reaches_handler (w : WineInput) :
  description w ≠ "" →
  strip (description w) = description w →
  (String.length (description w) ≤ 990)%nat →
  0 ≤ points w → points w ≤ Q2Qc 100 →
  0 ≤ price w → price w ≤ Q2Qc 10000 →
  variety w ≠ "" →
  WineInput_validate (pad_description w) = inr w.
Proof.
  intros Hne Hfix Hlen Hp1 Hp2 Hq1 Hq2 Hv.
  unfold WineInput_validate, pad_description. simpl.
  assert (description_field ("          " +:+ description w)%string
          = inr (description w)) as ->.
  { assert (String.length ("          " +:+ description w)%string
            = (10 + String.length (description w))%nat) as Hpad
      by reflexivity.
    unfold description_field, constr_length, validate_description.
    rewrite decide_False by (rewrite Hpad; lia).
    rewrite decide_False by (rewrite Hpad; lia).
    change (strip ("          " +:+ description w)%string)
      with (strip (description w)).
    rewrite Hfix. by rewrite decide_False. }
  unfold points_field, price_field, variety_field, number_size, constr_length.
  rewrite !decide_True by done.
  rewrite decide_False by (destruct (variety w); [done | simpl; lia]).
  by destruct w.
Qed.

Lemma short_description_reaches_handler_witness :
  WineInput_validate
    {| description := "          Dry";
       points := Q2Qc 88; price := Q2Qc 20; variety := "Pinot Noir" |}
  = inr {| description := "Dry";
           points := Q2Qc 88; price := Q2Qc 20; variety := "Pinot Noir" |}.
Proof.
  apply (short_description_reaches_handler
           {| description := "Dry"; points := Q2Qc 88; price := Q2Qc 20;
              variety := "Pinot Noir" |}).
  - discriminate.
  - reflexivity.
  - simpl. lia.
  - by apply (bool_decide_unpack _).
  - by apply (bool_decide_unpack _).
  - by apply (bool_decide_unpack _).
  - by apply (bool_decide_unpack _).
  - discriminate.
Defined.

Lemma field_errors_names {A} name (r : error_type + A) name' :
  name' ∈ (field_errors name r).*1 ↔ name' = name ∧ ∃ err, r = inl err.
Proof.
  destruct r as [err | x]; simpl.
  - rewrite list_elem_of_singleton. split; [intros ->; eauto | by intros []].
  - rewrite elem_of_nil. split; [done | by intros [_ [? ?]]].
Qed.

Lemma all_field_errors_names {A B C D} (rd : error_type + A)
    (rpts : error_type + B) (rpr : error_type + C) (rv : error_type + D)
    name :
  name ∈ (field_errors "description" rd ++ field_errors "points" rpts
          ++ field_errors "price" rpr ++ field_errors "variety" rv).*1
  ↔ (name = "description" ∧ ∃ err, rd = inl err)
    ∨ (name = "points" ∧ ∃ err, rpts = inl err)
    ∨ (name = "price" ∧ ∃ err, rpr = inl err)
    ∨ (name = "variety" ∧ ∃ err, rv = inl err).
Proof. by rewrite !fmap_app, !elem_of_app, !field_errors_names. Qed.

Lemma WineInput_validate_inl body errs :
  WineInput_validate body = inl errs →
  errs = field_errors "description" (description_field (description body))
         ++ field_errors "points" (points_field (points body))
         ++ field_errors "price" (price_field (price body))
         ++ field_errors "variety" (variety_field (variety body))
  ∧ errs ≠ [].
Proof.
  unfold WineInput_validate.
  destruct (description_field _), (points_field _), (price_field _),
    (variety_field _); intros [= <-]; by simpl.
Qed.

(** X16. A refused request body reports every failing field, not only the
    first: the error list is not empty, and it names [points] exactly when
    points are outside [0, 100], [price] exactly when the price is outside
    [0, 10000], [variety] exactly when the variety is empty, and
    [description] exactly when the description has fewer than 10 or more
    than 1000 characters or is blank. *)
Theorem validation_reports_each_failing_field (body : WineInput)
    (errs : list (string * error_type)) :
  WineInput_validate body = inl errs →
  errs ≠ []
  ∧ ("description" ∈ errs.*1
     ↔ (String.length (description body) < 10)%nat
       ∨ (1000 < String.length (description body))%nat
       ∨ strip (description body) = "")
  ∧ ("points" ∈ errs.*1 ↔ ¬ (0 ≤ points body ∧ points body ≤ Q2Qc 100))
  ∧ ("price" ∈ errs.*1 ↔ ¬ (0 ≤ price body ∧ price body ≤ Q2Qc 10000))
  ∧ ("variety" ∈ errs.*1 ↔ variety body = "").
Proof.
  intros [-> Hne]%WineInput_validate_inl.
  split; [done |].
  rewrite !all_field_errors_names.
  split_and!.
  - split.
    + intros [[_ [err Herr]] | [[? _] | [[? _] | [? _]]]]; try done.
      unfold description_field, constr_length, validate_description in Herr.
      repeat case_decide; simplify_eq; auto.
    + intros H. left. split; [done |].
      unfold description_field, constr_length, validate_description.
      repeat case_decide; eauto.
      exfalso. destruct H as [? | [? | ?]]; [lia | lia | done].
  - split.
    + intros [[? _] | [[_ [err Herr]] | [[? _] | [? _]]]]; try done.
      unfold points_field, number_size in Herr.
      repeat case_decide; simplify_eq; tauto.
    + intros H. right. left. split; [done |].
      unfold points_field, number_size.
      repeat case_decide; eauto; tauto.
  - split.
    + intros [[? _] | [[? _] | [[_ [err Herr]] | [? _]]]]; try done.
      unfold price_field, number_size in Herr.
      repeat case_decide; simplify_eq; tauto.
    + intros H. right. right. left. split; [done |].
      unfold price_field, number_size.
      repeat case_decide; eauto; tauto.
  - split.
    + intros [[? _] | [[? _] | [[? _] | [_ [err Herr]]]]]; try done.
      unfold variety_field, constr_length in Herr.
      case_decide; [| done]. destruct (variety body); [done | simpl in *; lia].
    + intros H. right. right. right. split; [done |].
      unfold variety_field, constr_length. rewrite H.
      case_decide; [eauto | simpl in *; lia].
Qed.

Lemma validation_reports_each_failing_field_witness :
  let errs := [("points", not_le_error); ("price", not_ge_error);
               ("variety", min_length_error)] in
  errs ≠ []
  ∧ ("description" ∈ errs.*1
     ↔ (String.length (description example_bad_body) < 10)%nat
       ∨ (1000 < String.length (description example_bad_body))%nat
       ∨ strip (description example_bad_body) = "")
  ∧ ("points" ∈ errs.*1
     ↔ ¬ (0 ≤ points example_bad_body ∧ points example_bad_body ≤ Q2Qc 100))
  ∧ ("price" ∈ errs.*1
     ↔ ¬ (0 ≤ price example_bad_body ∧ price example_bad_body ≤ Q2Qc 10000))
  ∧ ("variety" ∈ errs.*1 ↔ variety example_bad_body = "").
Proof.
  intros errs.
  apply (validation_reports_each_failing_field example_bad_body errs).
  reflexivity.
Defined.

(** ** Unknown varieties *)

(** X17. Unknown varieties are indistinguishable: two inputs that differ
    only in their variety, both refused by the encoder with a [ValueError],
    get the same outcome from the handler, whatever the two error
    messages. *)
Theorem unknown_varieties_indistinguishable (a : Artifacts) (clock : Clock)
    (wine1 wine2 : WineInput) (msg1 msg2 : string) :
  description wine1 = description wine2 →
  points wine1 = points wine2 →
  price wine1 = price wine2 →
  encoder_transform (art_encoder a) (variety wine1)
  = Raise (ValueError msg1) →
  encoder_transform (art_encoder a) (variety wine2)
  = Raise (ValueError msg2) →
  predict_wine_origin (loaded a) clock wine1
  = predict_wine_origin (loaded a) clock wine2.
Proof.
  intros Hd Hpts Hpr H1 H2.
  assert (features (loaded a) wine1 = features (loaded a) wine2) as HX.
  { rewrite !features_loaded, Hd, Hpts, Hpr.
    unfold encode_variety. by rewrite H1, H2. }
  rewrite !predict_loaded. unfold predict_body. by rewrite HX.
Qed.

Lemma unknown_varieties_indistinguishable_witness :
  predict_wine_origin (loaded example_artifacts) example_clock
    example_unknown_wine
  = predict_wine_origin (loaded example_artifacts) example_clock
      example_other_unknown_wine.
Proof.
  apply (unknown_varieties_indistinguishable example_artifacts example_clock
           example_unknown_wine example_other_unknown_wine
           "Found unknown categories" "Found unknown categories").
  - reflexivity.
  - reflexivity.
  - reflexivity.
  - reflexivity.
  - reflexivity.
Defined.

(** ** Repeated requests on stateful objects *)










(** On objects that touch no heap the stateful handler is the handler on
    their functions. *)
Lemma predict_call_stateless {Heap} (a : Artifacts) clock wine (σ : Heap) :
  predict_wine_origin_call true (stateless_objects a) clock wine σ
  = (predict_wine_origin (loaded a) clock wine, σ).
Proof.
  rewrite predict_loaded.
  unfold predict_wine_origin_call, predict_body_call, predict_body. simpl.
  assert (features_call (stateless_objects a) wine σ
          = (features (loaded a) wine, σ)) as HX.
  { rewrite features_loaded.
    unfold features_call, encode_variety_call, try_except_ValueError,
      encode_variety, mbind, call_bind, no_call. simpl.
    destruct (tfidf_transform _ _); simpl; [| done].
    destruct (encoder_transform _ _) as [| []]; simpl;
      try destruct (get_feature_names_out _); simpl;
      try destruct (scaler_transform _ _); simpl;
      by rewrite ?app_nil_r. }
  unfold mbind at 1, call_bind at 1. rewrite HX.
  destruct (features (loaded a) wine) as [X |]; simpl; [| done].
  assert (ensemble_call (stateless_objects a) X σ
          = (ensemble (loaded a) X, σ)) as Hens.
  { rewrite ensemble_loaded.
    unfold ensemble_call, mbind, call_bind, no_call. simpl.
    destruct (predict_proba (art_rf a) X); simpl; [| done].
    destruct (predict_proba (art_xgb a) X); simpl; [| done].
    destruct (average _ _); simpl; [| done].
    destruct (np.argmax _); simpl; [| done].
    by destruct (np.getitem _ _). }
  unfold mbind, call_bind. rewrite Hens.
  by destruct (ensemble (loaded a) X) as [[label conf] |].
Qed.


Lemma stateless_objects_read_only {Heap} (a : Artifacts) :
  read_only (stateless_objects a : ObjectArtifacts Heap).
Proof. by repeat split. Qed.


(** Without read-only objects the two requests may differ: a classifier
    that counts its calls answers the second request with another
    country. *)
Lemma counting_objects_differ :
  let first :=
    predict_wine_origin_call true example_counting_objects example_clock
      get_example 0%nat in
  let second :=
    predict_wine_origin_call true example_counting_objects example_clock
      get_example first.2 in
  ¬ same_prediction first.1 second.1.
Proof. vm_compute. by intros [? _]. Qed.

